(** * GPU register file ([video_core/src/core/hw/gpu.h])

  A shallow embedding of the memory-mapped register block [GPU::Regs]:
  the declaration order and padding of the structure, the accessor
  functions it defines, and the dispatch entry points [Read] / [Write]
  that the header only declares. *)

From Stdlib Require Import ZArith Lia.
From stdpp Require Import base option list strings.

Local Open Scope Z_scope.
#[local] Set Warnings "-register-all".

(** ** Fixed-width arithmetic on [u32] *)

Module U32.

Definition bits : Z := 32.
Definition modulus : Z := 2 ^ bits.

(** A value of type [u32]. *)
Definition is_u32 (x : Z) : Prop := 0 <= x < modulus.

(** Conversion of a mathematical result back to [u32]. *)
Definition wrap (x : Z) : Z := x mod modulus.

Definition add (a b : Z) : Z := wrap (a + b).
Definition mul (a b : Z) : Z := wrap (a * b).
Definition and (a b : Z) : Z := Z.land a b.
Definition shr (a n : Z) : Z := Z.shiftr a n.

End U32.

(** ** Structure layout *)

Module Layout.

(** [sizeof(u32)] *)
Definition sizeof_u32 : Z := 4.

(** The members a register structure is declared from.  Every scalar
    member of [Regs] is a [u32] (or an anonymous union whose alternatives
    all overlay one [u32]), so members follow each other without
    alignment gaps. *)
Inductive Member : Type :=
| Reg (name : string)
    (* [u32 name;] or [union { u32 name; BitFieldLegacy<..> ..; };] *)
| Padding (num_words : Z)
    (* [INSERT_PADDING_WORDS(num_words);] *)
| Block (name : string) (count : Z) (body : list Member).
    (* [struct { body } name;] (count 1) or [struct { body } name[count];] *)

Fixpoint sizeof_member (m : Member) : Z :=
  match m with
  | Reg _ => sizeof_u32
  | Padding n => n * sizeof_u32
  | Block _ count body =>
      count * foldr (fun x acc => sizeof_member x + acc) 0 body
  end.

Definition sizeof_struct (ms : list Member) : Z :=
  foldr (fun x acc => sizeof_member x + acc) 0 ms.

(** Size of one element of a member (the member itself unless it is an
    array). *)
Definition sizeof_element (m : Member) : Z :=
  match m with
  | Block _ _ body => sizeof_struct body
  | _ => sizeof_member m
  end.

Definition member_name (m : Member) : option string :=
  match m with
  | Reg n => Some n
  | Padding _ => None
  | Block n _ _ => Some n
  end.

Definition member_count (m : Member) : Z :=
  match m with
  | Block _ count _ => count
  | _ => 1
  end.

Definition member_body (m : Member) : list Member :=
  match m with
  | Block _ _ body => body
  | _ => []
  end.

(** Byte offset of the member called [name] in a structure, with the
    member found. *)
Fixpoint find_member (ms : list Member) (name : string) : option (Z * Member) :=
  match ms with
  | [] => None
  | m :: rest =>
      if bool_decide (member_name m = Some name) then Some (0, m)
      else
        match find_member rest name with
        | Some (off, found) => Some (sizeof_member m + off, found)
        | None => None
        end
  end.

(** A member designator such as [memory_fill_config[1].control]: the
    path of member names, each with its array subscript ([0] for a
    member that is not an array). *)
Definition Designator : Type := list (string * Z).

(** [offsetof(S, designator)], in bytes, for a designator that names each
    member as the layout lists it (a union by its first member) and
    subscripts an array inside its declared bounds.  Other designators,
    which a compiler may still resolve (a subscript past the bounds, a
    bit-field alternative of a union, a padding member), are not modelled
    and give [None]. *)
Fixpoint offsetof (ms : list Member) (d : Designator) : option Z :=
  match d with
  | [] => Some 0
  | (name, i) :: rest =>
      match find_member ms name with
      | Some (off, m) =>
          if bool_decide (0 <= i < member_count m) then
            match offsetof (member_body m) rest with
            | Some inner => Some (off + i * sizeof_element m + inner)
            | None => None
            end
          else None
      | None => None
      end
  end.

(** What each 32-bit word of a structure is: [Some d] for the register
    designated by [d], [None] for a padding word. *)
Fixpoint words_of_member (m : Member) : list (option Designator) :=
  match m with
  | Reg n => [Some [(n, 0)]]
  | Padding k => replicate (Z.to_nat k) None
  | Block n count body =>
      let inner := flat_map words_of_member body in
      flat_map
        (fun i => map (option_map (fun d : Designator => (n, i) :: d)) inner)
        (seqZ 0 count)
  end.

Definition words_of_struct (ms : list Member) : list (option Designator) :=
  flat_map words_of_member ms.

End Layout.

Import Layout.

(** ** [struct Regs] *)

Module Regs.

(** The members of [struct Regs] in declaration order. *)
Definition members : list Member :=
  [ Padding 0x4
  ; Block "memory_fill_config" 2
      [ Reg "address_start"
      ; Reg "address_end"
      ; Reg "value_32bit"
      ; Reg "control" ]
  ; Padding 0x10b
  ; Block "framebuffer_config" 2
      [ Reg "size"
      ; Padding 0x2
      ; Reg "address_left1"
      ; Reg "address_left2"
      ; Reg "format"
      ; Padding 0x1
      ; Reg "active_fb"
      ; Padding 0x5
      ; Reg "stride"
      ; Reg "address_right1"
      ; Reg "address_right2"
      ; Padding 0x30 ]
  ; Padding 0x169
  ; Block "display_transfer_config" 1
      [ Reg "input_address"
      ; Reg "output_address"
      ; Block "display_transfer" 1
          [ Reg "output_size"
          ; Reg "input_size" ]
      ; Reg "flags"
      ; Padding 0x1
      ; Reg "trigger"
      ; Padding 0x1
      ; Block "texture_copy" 1
          [ Reg "total_bytes_to_copy"
          ; Reg "input_size_with_padding"
          ; Reg "output_size_with_padding" ] ]
  ; Padding 0x32d
  ; Block "command_processor_config" 1
      [ Reg "size"
      ; Padding 0x1
      ; Reg "address"
      ; Padding 0x1
      ; Reg "trigger" ]
  ; Padding 0x9c3 ].

(** [sizeof(Regs)] *)
Definition sizeof : Z := sizeof_struct members.

(** [offsetof(Regs, field_name)] *)
Definition offset (d : Designator) : option Z := offsetof members d.

(** [GPU_REG_INDEX(field_name)] *)
Definition GPU_REG_INDEX (d : Designator) : option Z :=
  (fun o => o / sizeof_u32) <$> offset d.

(** [NumIds()] *)
Definition NumIds : Z := sizeof / sizeof_u32.

(** [sizeof(member)] as checked by [ASSERT_MEMBER_SIZE]. *)
Definition member_size (name : string) : option Z :=
  (fun '(_, m) => sizeof_element m) <$> find_member members name.

(** The register, if any, behind each word of the block. *)
Definition words : list (option Designator) := words_of_struct members.

(** Every named word is found by [GPU_REG_INDEX] at its own position. *)
Definition words_consistent : bool :=
  forallb
    (fun p : nat * option Designator =>
       match p.2 with
       | Some d => bool_decide (GPU_REG_INDEX d = Some (Z.of_nat p.1))
       | None => true
       end)
    (zip (seq 0 (length words)) words).

End Regs.

(** ** Bit fields *)

Module BitField.

(** Modelled from the spec: [support/common/bit_field.h], which declares
    [BitFieldLegacy<position, bits, T>], is not among the sources.  A bit
    field is an explicit mask-and-shift view of the [bits] bits starting at
    bit [position] of the plain integer it overlays (spec, design notes). *)
Definition mask (position bits : Z) : Z := Z.shiftl (Z.ones bits) position.

(** Modelled from the spec: [BitFieldLegacy::Value] of the missing
    [bit_field.h], the field shifted down and masked. *)
Definition Value (position bits : Z) (storage : Z) : Z :=
  Z.land (Z.shiftr storage position) (Z.ones bits).

(** Modelled from the spec: assignment to a [BitFieldLegacy] of the missing
    [bit_field.h]; the bits of the field are replaced, the others kept. *)
Definition Assign (position bits : Z) (storage value : Z) : Z :=
  Z.lor (Z.ldiff storage (mask position bits))
        (Z.land (Z.shiftl value position) (mask position bits)).

End BitField.

(** ** Address registers *)

(** [Regs::DecodeAddressRegister] *)
Definition DecodeAddressRegister (register_value : Z) : Z :=
  U32.mul register_value 8.

(** ** Framebuffer formats *)

(** Modelled from the spec: [framework/image_format.hpp], which declares
    [GenericImageFormat], is not among the sources; these are the
    enumerators [format_map] names. *)
Inductive GenericImageFormat : Type :=
| RGBA8 | RGB8 | RGB565 | RGBA5551 | RGBA4.

Module FramebufferFormat.

Record t : Type := Build { raw : Z }.

Definition format_map : list GenericImageFormat :=
  [RGBA8; RGB8; RGB565; RGBA5551; RGBA4].

End FramebufferFormat.

(** ** Typed views of the register block *)

Module memory_fill_config.

Record t : Type := Build
  { address_start : Z
  ; address_end : Z
  ; value_32bit : Z
  ; control : Z }.

Definition value_16bit (c : t) : Z := BitField.Value 0 16 (value_32bit c).
Definition value_24bit_r (c : t) : Z := BitField.Value 0 8 (value_32bit c).
Definition value_24bit_g (c : t) : Z := BitField.Value 8 8 (value_32bit c).
Definition value_24bit_b (c : t) : Z := BitField.Value 16 8 (value_32bit c).

Definition trigger (c : t) : Z := BitField.Value 0 1 (control c).
Definition finished (c : t) : Z := BitField.Value 1 1 (control c).
Definition fill_24bit (c : t) : Z := BitField.Value 8 1 (control c).
Definition fill_32bit (c : t) : Z := BitField.Value 9 1 (control c).

Definition GetStartAddress (c : t) : Z := DecodeAddressRegister (address_start c).
Definition GetEndAddress (c : t) : Z := DecodeAddressRegister (address_end c).

End memory_fill_config.

Module framebuffer_config.

Record t : Type := Build
  { size : Z
  ; address_left1 : Z
  ; address_left2 : Z
  ; format : Z
  ; active_fb : Z
  ; stride : Z
  ; address_right1 : Z
  ; address_right2 : Z }.

Definition width (c : t) : Z := BitField.Value 0 16 (size c).
Definition height (c : t) : Z := BitField.Value 16 16 (size c).
Definition second_fb_active (c : t) : Z := BitField.Value 0 1 (active_fb c).

Definition GetFormat (c : t) : FramebufferFormat.t :=
  FramebufferFormat.Build (format c).

End framebuffer_config.

Module texture_copy.

Record t : Type := Build
  { total_bytes_to_copy : Z
  ; input_size_with_padding : Z
  ; output_size_with_padding : Z }.

Definition InputBytesPerLine (c : t) : Z :=
  U32.mul (U32.and (input_size_with_padding c) 0xffff) 16.

Definition OutputBytesPerLine (c : t) : Z :=
  U32.mul (U32.and (output_size_with_padding c) 0xffff) 16.

Definition InputPaddingBytesPerLine (c : t) : Z :=
  U32.mul (U32.shr (input_size_with_padding c) 16) 16.

Definition OutputPaddingBytesPerLine (c : t) : Z :=
  U32.mul (U32.shr (output_size_with_padding c) 16) 16.

Definition InputTotalBytesPerLine (c : t) : Z :=
  U32.add (InputBytesPerLine c) (InputPaddingBytesPerLine c).

Definition OutputTotalBytesPerLine (c : t) : Z :=
  U32.add (OutputBytesPerLine c) (OutputPaddingBytesPerLine c).

End texture_copy.

Module display_transfer_config.

Record t : Type := Build
  { input_address : Z
  ; output_address : Z
  ; output_size : Z
  ; input_size : Z
  ; flags : Z
  ; trigger : Z
  ; texture_copy : texture_copy.t }.

Definition GetPhysicalInputAddress (c : t) : Z :=
  DecodeAddressRegister (input_address c).
Definition GetPhysicalOutputAddress (c : t) : Z :=
  DecodeAddressRegister (output_address c).

Definition output_width (c : t) : Z := BitField.Value 0 16 (output_size c).
Definition output_height (c : t) : Z := BitField.Value 16 16 (output_size c).
Definition input_width (c : t) : Z := BitField.Value 0 16 (input_size c).
Definition input_height (c : t) : Z := BitField.Value 16 16 (input_size c).

Definition flip_data (c : t) : Z := BitField.Value 0 1 (flags c).
Definition convert_to_tiled (c : t) : Z := BitField.Value 1 1 (flags c).
Definition is_raw_copy (c : t) : Z := BitField.Value 3 1 (flags c).
Definition disable_untiling (c : t) : Z := BitField.Value 5 1 (flags c).
Definition input_format (c : t) : Z := BitField.Value 8 3 (flags c).
Definition output_format (c : t) : Z := BitField.Value 12 3 (flags c).
Definition output_tiled (c : t) : Z := BitField.Value 16 1 (flags c).
Definition scaling_mode (c : t) : Z := BitField.Value 24 2 (flags c).

Definition GetInputFormat (c : t) : FramebufferFormat.t :=
  FramebufferFormat.Build (input_format c).
Definition GetOutputFormat (c : t) : FramebufferFormat.t :=
  FramebufferFormat.Build (output_format c).

End display_transfer_config.

Module command_processor_config.

Record t : Type := Build
  { size : Z
  ; address : Z
  ; trigger : Z }.

Definition GetPhysicalAddress (c : t) : Z := DecodeAddressRegister (address c).

End command_processor_config.

(** ** Word-indexed access: [Regs::operator[]] *)

(** The operator reinterprets [this] as [u32*] and returns a reference to
    [content[index]].  Memory is modelled flat: an address is a byte
    address, and [Memory.t] gives the [u32] stored at each of them.  The
    source performs no comparison of [index] with anything, and neither
    does the model. *)
Module Memory.

Definition t : Type := Z -> Z.

Definition load (m : t) (address : Z) : Z := m address.

Definition store (m : t) (address value : Z) : t :=
  fun a => if bool_decide (a = address) then value else m a.

End Memory.

(** The address the reference returned by [regs[index]] designates, for
    the [Regs] object at address [this]. *)
Definition Regs_subscript (this index : Z) : Z := this + index * sizeof_u32.

(** The storage of the [Regs] object at address [this]. *)
Definition inside_Regs (this address : Z) : Prop :=
  this <= address < this + Regs.sizeof.

(** The words of the [Regs] object at address [this], in order. *)
Definition Regs_contents (m : Memory.t) (this : Z) : list Z :=
  (fun i => Memory.load m (this + i * sizeof_u32)) <$> seqZ 0 Regs.NumIds.

(** ** Dispatch interface: [Read] and [Write] *)

Module Dispatch.

(** Modelled from the spec: the two errors of the register layer (section
    7); the header declares none. *)
Inductive Error : Type := OutOfRange | InvalidFormat.

Inductive Result (A : Type) : Type :=
| Ok (a : A)
| Fail (e : Error).
Arguments Ok {A} a.
Arguments Fail {A} e.

#[global] Instance Result_ret : MRet Result := @Ok.
#[global] Instance Result_bind : MBind Result :=
  fun A B f r => match r with Ok a => f a | Fail e => Fail e end.

Definition of_option {A : Type} (e : Error) (o : option A) : Result A :=
  match o with Some a => Ok a | None => Fail e end.

(** Modelled from the spec: no function of the sources looks a format code
    up.  The code indexes the five-entry table; a code outside the table
    is InvalidFormat, raised where the format is looked up. *)
Definition lookup_format (f : FramebufferFormat.t) : Result GenericImageFormat :=
  let raw := FramebufferFormat.raw f in
  if bool_decide (0 <= raw < Z.of_nat (length FramebufferFormat.format_map))
  then of_option InvalidFormat (FramebufferFormat.format_map !! Z.to_nat raw)
  else Fail InvalidFormat.

(** Modelled from the spec: what the collaborators reached through
    [Pica::Context], which the header only names, are asked to do (section
    6): a memory fill with a value of one of three widths, a raw texture
    copy, a converting display transfer, a command list to run. *)
Inductive FillValue : Type :=
| Fill16 (value : Z)
| Fill24 (r g b : Z)
| Fill32 (value : Z).

Inductive Event : Type :=
| MemoryFill (start_address end_address : Z) (value : FillValue)
| TextureCopy (input_address output_address total_bytes_to_copy : Z)
    (input_bytes_per_line input_total_bytes_per_line : Z)
    (output_bytes_per_line output_total_bytes_per_line : Z)
| DisplayTransfer (input_address output_address : Z)
    (input_width input_height output_width output_height : Z)
    (input_format output_format : GenericImageFormat)
    (flip_data convert_to_tiled disable_untiling output_tiled scaling_mode : Z)
| CommandList (physical_address unit_count : Z).

(** Modelled from the spec: the device state behind the context handle,
    standing for [g_regs] and the collaborators: the register file and the
    collaborator calls made so far, oldest first. *)
Record Device : Type := Build
  { regs : list Z
  ; calls : list Event }.

(** The register file has exactly [NumIds] words. *)
Definition well_formed (dev : Device) : Prop :=
  length (regs dev) = Z.to_nat Regs.NumIds.

(** Modelled from the spec: the word-indexed access [Read] and [Write] go
    through (sections 4.1 and 4.2), which is not [Regs::operator[]]: the
    index is in [0,4095], and an index outside the register file is
    OutOfRange. *)
Definition get_word (rf : list Z) (index : Z) : Result Z :=
  if bool_decide (0 <= index) then of_option OutOfRange (rf !! Z.to_nat index)
  else Fail OutOfRange.

(** Modelled from the spec: the store counterpart of [get_word]. *)
Definition set_word (rf : list Z) (index value : Z) : Result (list Z) :=
  if bool_decide (0 <= index < Z.of_nat (length rf))
  then Ok (<[Z.to_nat index := value]> rf)
  else Fail OutOfRange.

(** Access to a named register through its position in the layout. *)
Definition get_reg (rf : list Z) (d : Designator) : Result Z :=
  index ← of_option OutOfRange (Regs.GPU_REG_INDEX d); get_word rf index.

Definition set_reg (rf : list Z) (d : Designator) (value : Z) : Result (list Z) :=
  index ← of_option OutOfRange (Regs.GPU_REG_INDEX d); set_word rf index value.

(** The typed views, read out of the register file. *)
Definition memory_fill_view (rf : list Z) (i : Z) : Result memory_fill_config.t :=
  let f name := get_reg rf [("memory_fill_config", i); (name, 0)] in
  address_start ← f "address_start";
  address_end ← f "address_end";
  value_32bit ← f "value_32bit";
  control ← f "control";
  mret (memory_fill_config.Build address_start address_end value_32bit control).

Definition display_transfer_view (rf : list Z) : Result display_transfer_config.t :=
  let f path := get_reg rf (("display_transfer_config", 0) :: path) in
  input_address ← f [("input_address", 0)];
  output_address ← f [("output_address", 0)];
  output_size ← f [("display_transfer", 0); ("output_size", 0)];
  input_size ← f [("display_transfer", 0); ("input_size", 0)];
  flags ← f [("flags", 0)];
  trigger ← f [("trigger", 0)];
  total ← f [("texture_copy", 0); ("total_bytes_to_copy", 0)];
  input_line ← f [("texture_copy", 0); ("input_size_with_padding", 0)];
  output_line ← f [("texture_copy", 0); ("output_size_with_padding", 0)];
  mret (display_transfer_config.Build input_address output_address
          output_size input_size flags trigger
          (texture_copy.Build total input_line output_line)).

Definition command_processor_view (rf : list Z) : Result command_processor_config.t :=
  let f name := get_reg rf [("command_processor_config", 0); (name, 0)] in
  size ← f "size";
  address ← f "address";
  trigger ← f "trigger";
  mret (command_processor_config.Build size address trigger).

(** Modelled from the spec: the three engines a trigger word starts
    (section 4.2), each with the register that is its trigger word. *)
Inductive Engine : Type :=
| MemoryFillEngine (i : Z)
| DisplayTransferEngine
| CommandProcessorEngine.

Definition trigger_word (e : Engine) : Designator :=
  match e with
  | MemoryFillEngine i => [("memory_fill_config", i); ("control", 0)]
  | DisplayTransferEngine => [("display_transfer_config", 0); ("trigger", 0)]
  | CommandProcessorEngine => [("command_processor_config", 0); ("trigger", 0)]
  end.

Definition engines : list Engine :=
  [MemoryFillEngine 0; MemoryFillEngine 1; DisplayTransferEngine;
   CommandProcessorEngine].

(** Modelled from the spec: the engine, if any, whose trigger word is
    word [index]. *)
Definition engine_at (index : Z) : option Engine :=
  List.find
    (fun e => bool_decide (Regs.GPU_REG_INDEX (trigger_word e) = Some index))
    engines.

(** Modelled from the spec: the trigger bit of a trigger word, bit 0 as in
    [memory_fill_config[i].trigger]. *)
Definition trigger_bit (word : Z) : Z := BitField.Value 0 1 word.

(** Modelled from the spec: the fill value the mode bits select (section
    4.3): 24-bit if [fill_24bit], else 32-bit if [fill_32bit], else
    16-bit. *)
Definition fill_value (c : memory_fill_config.t) : FillValue :=
  if bool_decide (memory_fill_config.fill_24bit c = 1) then
    Fill24 (memory_fill_config.value_24bit_r c)
           (memory_fill_config.value_24bit_g c)
           (memory_fill_config.value_24bit_b c)
  else if bool_decide (memory_fill_config.fill_32bit c = 1) then
    Fill32 (memory_fill_config.value_32bit c)
  else Fill16 (memory_fill_config.value_16bit c).

(** Modelled from the spec: the memory-fill step (section 4.3), absent
    from the sources with [Write].  The fill is delegated with the decoded
    range and the fill value; on completion [finished] is set and
    [trigger] reset. *)
Definition memory_fill (dev : Device) (i : Z) : Result Device :=
  c ← memory_fill_view (regs dev) i;
  let call :=
    MemoryFill (memory_fill_config.GetStartAddress c)
               (memory_fill_config.GetEndAddress c) (fill_value c) in
  let done :=
    BitField.Assign 0 1 (BitField.Assign 1 1 (memory_fill_config.control c) 1) 0 in
  rf ← set_reg (regs dev) (trigger_word (MemoryFillEngine i)) done;
  mret (Build rf (calls dev ++ [call])).

(** Modelled from the spec: the display-transfer step (section 4.4),
    absent from the sources with [Write].  A
    raw copy passes the per-line quantities on; otherwise both format
    codes are looked up and the blit is delegated in one call.  No status
    bit is written back. *)
Definition display_transfer (dev : Device) : Result Device :=
  c ← display_transfer_view (regs dev);
  let tc := display_transfer_config.texture_copy c in
  if bool_decide (display_transfer_config.is_raw_copy c = 1) then
    mret (Build (regs dev) (calls dev ++
      [TextureCopy (display_transfer_config.GetPhysicalInputAddress c)
         (display_transfer_config.GetPhysicalOutputAddress c)
         (texture_copy.total_bytes_to_copy tc)
         (texture_copy.InputBytesPerLine tc)
         (texture_copy.InputTotalBytesPerLine tc)
         (texture_copy.OutputBytesPerLine tc)
         (texture_copy.OutputTotalBytesPerLine tc)]))
  else
    input_format ← lookup_format (display_transfer_config.GetInputFormat c);
    output_format ← lookup_format (display_transfer_config.GetOutputFormat c);
    mret (Build (regs dev) (calls dev ++
      [DisplayTransfer (display_transfer_config.GetPhysicalInputAddress c)
         (display_transfer_config.GetPhysicalOutputAddress c)
         (display_transfer_config.input_width c)
         (display_transfer_config.input_height c)
         (display_transfer_config.output_width c)
         (display_transfer_config.output_height c)
         input_format output_format
         (display_transfer_config.flip_data c)
         (display_transfer_config.convert_to_tiled c)
         (display_transfer_config.disable_untiling c)
         (display_transfer_config.output_tiled c)
         (display_transfer_config.scaling_mode c)])).

(** Modelled from the spec: the command-processor step (section 4.6),
    absent from the sources with [Write].  The
    decoded address and the size in 8-byte units go to the command-list
    collaborator; no status bit is written back. *)
Definition command_processor (dev : Device) : Result Device :=
  c ← command_processor_view (regs dev);
  mret (Build (regs dev) (calls dev ++
    [CommandList (command_processor_config.GetPhysicalAddress c)
                 (command_processor_config.size c)])).

(** Modelled from the spec: the step of engine [e]. *)
Definition run_engine (dev : Device) (e : Engine) : Result Device :=
  match e with
  | MemoryFillEngine i => memory_fill dev i
  | DisplayTransferEngine => display_transfer dev
  | CommandProcessorEngine => command_processor dev
  end.

(** Modelled from the spec: [Read<u32>], declared in the header and defined
    outside the sources (section 4.2).  [addr] is a byte offset into the
    register space, word [addr / 4] is returned, nothing is changed; an
    offset beyond the space is OutOfRange. *)
Definition Read (dev : Device) (addr : Z) : Result Z :=
  if bool_decide (0 <= addr < Regs.sizeof)
  then get_word (regs dev) (addr / sizeof_u32)
  else Fail OutOfRange.

(** Modelled from the spec: [Write<u32>], declared in the header and
    defined outside the sources (sections 2 and 4.2).  The value is stored
    in word [addr / 4]; if that word is one of the trigger words and its
    trigger bit goes from 0 to 1, the engine runs before the write
    returns. *)
Definition Write (dev : Device) (addr data : Z) : Result Device :=
  if bool_decide (0 <= addr < Regs.sizeof) then
    let index := addr / sizeof_u32 in
    old ← get_word (regs dev) index;
    rf ← set_word (regs dev) index data;
    let stored := Build rf (calls dev) in
    match engine_at index with
    | Some e =>
        if bool_decide (trigger_bit old = 0 /\ trigger_bit data = 1)
        then run_engine stored e
        else mret stored
    | None => mret stored
    end
  else Fail OutOfRange.

(** A byte offset a [u32] access can be made at: inside the register space
    and word aligned. *)
Definition valid_offset (addr : Z) : Prop :=
  0 <= addr < Regs.sizeof /\ addr mod sizeof_u32 = 0.

(** The word at byte offset [addr] is a named register. *)
Definition named_offset (addr : Z) : Prop :=
  exists d, Regs.words !! Z.to_nat (addr / sizeof_u32) = Some (Some d).

(** The word at byte offset [addr] is one of the trigger words. *)
Definition trigger_offset (addr : Z) : Prop :=
  is_Some (engine_at (addr / sizeof_u32)).

(** The device after reset: every register zero, nothing delegated. *)
Definition reset : Device := Build (replicate (Z.to_nat Regs.NumIds) 0) [].

(** A device whose command list is 4 units at register address 0x1000. *)
Definition command_list_ready : Device :=
  Build (<[Z.to_nat 0x63a := 0x1000]> (<[Z.to_nat 0x638 := 4]> (regs reset))) [].

End Dispatch.

(** ** Layout induction and the index macros *)

(** Induction over a layout, with the members of a nested structure
    covered by the hypothesis. *)
Fixpoint Member_nested_ind (P : Member -> Prop)
    (HReg : forall n, P (Reg n)) (HPad : forall k, P (Padding k))
    (HBlock : forall n c body, Forall P body -> P (Block n c body))
    (m : Member) : P m :=
  match m with
  | Reg n => HReg n
  | Padding k => HPad k
  | Block n c body =>
      HBlock n c body
        ((fix go (l : list Member) : Forall P l :=
            match l with
            | [] => @List.Forall_nil Member P
            | x :: r =>
                @List.Forall_cons Member P x r (Member_nested_ind P HReg HPad HBlock x) (go r)
            end) body)
  end.

(** [GPU_REG_INDEX_WORKAROUND(field_name, backup_workaround_index)].  With
    [_MSC_VER] defined it is the backup index; otherwise it is
    [GPU_REG_INDEX(field_name)], and the [std::enable_if] leaves the
    program ill-formed ([None]) unless the backup index equals it. *)
Definition GPU_REG_INDEX_WORKAROUND (msc_ver : bool) (d : Designator)
    (backup_workaround_index : Z) : option Z :=
  if msc_ver then Some backup_workaround_index
  else
    match Regs.GPU_REG_INDEX d with
    | Some index =>
        if bool_decide (backup_workaround_index = index) then Some index else None
    | None => None
    end.

(** * Properties *)

(** ** Layout *)

(** The sizes [ASSERT_MEMBER_SIZE] checks. *)
Lemma member_sizes :
  Regs.member_size "memory_fill_config" = Some 0x10 /\
  Regs.member_size "framebuffer_config" = Some 0x100 /\
  Regs.member_size "display_transfer_config" = Some 0x2c /\
  Regs.member_size "command_processor_config" = Some 0x14.
Proof. repeat split. Qed.

Lemma words_consistent_holds : Regs.words_consistent = true.
Proof. vm_compute. reflexivity. Qed.

(** The two readings of the layout agree: the word list names a register
    at the index its designator is found at. *)
Lemma words_agree_with_offsets (i : nat) (d : Designator) :
  Regs.words !! i = Some (Some d) -> Regs.GPU_REG_INDEX d = Some (Z.of_nat i).
Proof.
  intros H. pose proof words_consistent_holds as Hc.
  unfold Regs.words_consistent in Hc. rewrite forallb_forall in Hc.
  specialize (Hc (i, Some d)). cbn [fst snd] in Hc.
  eapply bool_decide_eq_true_1, Hc, list_elem_of_In.
  apply (list_elem_of_lookup_2 _ i).
  rewrite lookup_zip_with, H.
  rewrite lookup_seq_lt by (eapply lookup_lt_Some, H).
  reflexivity.
Qed.

(** C1: every named register block sits at the word offset of the fixed
  offset table (memory_fill_config[0] at 0x004, memory_fill_config[1] at
  0x008, framebuffer_config[0] at 0x117, framebuffer_config[1] at 0x157,
  display_transfer_config at 0x300, command_processor_config at 0x638),
  and the register file is 0x1000 words, 16384 bytes. *)
Theorem reg_positions :
  Regs.offset [("memory_fill_config", 0)] = Some (0x004 * 4) /\
  Regs.offset [("memory_fill_config", 1)] = Some (0x008 * 4) /\
  Regs.offset [("framebuffer_config", 0)] = Some (0x117 * 4) /\
  Regs.offset [("framebuffer_config", 1)] = Some (0x157 * 4) /\
  Regs.offset [("display_transfer_config", 0)] = Some (0x300 * 4) /\
  Regs.offset [("command_processor_config", 0)] = Some (0x638 * 4) /\
  Regs.GPU_REG_INDEX [("memory_fill_config", 0)] = Some 0x004 /\
  Regs.GPU_REG_INDEX [("memory_fill_config", 1)] = Some 0x008 /\
  Regs.GPU_REG_INDEX [("framebuffer_config", 0)] = Some 0x117 /\
  Regs.GPU_REG_INDEX [("framebuffer_config", 1)] = Some 0x157 /\
  Regs.GPU_REG_INDEX [("display_transfer_config", 0)] = Some 0x300 /\
  Regs.GPU_REG_INDEX [("command_processor_config", 0)] = Some 0x638 /\
  Regs.sizeof = 0x1000 * sizeof_u32 /\
  Regs.sizeof = 16384 /\
  Regs.NumIds = 0x1000 /\
  length Regs.words = Z.to_nat 0x1000.
Proof. repeat split; vm_compute; reflexivity. Qed.

(** ** Fixed-width arithmetic *)

Section U32_facts.

Lemma u32_modulus : U32.modulus = 4294967296.
Proof. reflexivity. Qed.

Lemma wrap_small (x : Z) : U32.is_u32 x -> U32.wrap x = x.
Proof. intros H. apply Z.mod_small, H. Qed.

Lemma low_half_range (x : Z) : 0 <= U32.and x 0xffff <= 0xffff.
Proof.
  unfold U32.and. change 0xffff with (Z.ones 16).
  rewrite Z.land_ones by lia.
  pose proof (Z.mod_pos_bound x (2 ^ 16) ltac:(lia)).
  change (Z.ones 16) with (2 ^ 16 - 1). lia.
Qed.

Lemma high_half_range (x : Z) : U32.is_u32 x -> 0 <= U32.shr x 16 <= 0xffff.
Proof.
  unfold U32.is_u32, U32.shr. rewrite u32_modulus. intros H.
  rewrite Z.shiftr_div_pow2 by lia. change (2 ^ 16) with 65536.
  split; [apply Z.div_pos; lia|].
  assert (x / 65536 < 65536) by (apply Z.div_lt_upper_bound; lia). lia.
Qed.

(** Sixteen times a 16-bit quantity fits a [u32]. *)
Lemma steps_exact (n : Z) : 0 <= n <= 0xffff -> U32.mul n 16 = n * 16.
Proof.
  intros H. unfold U32.mul. apply wrap_small.
  unfold U32.is_u32. rewrite u32_modulus. lia.
Qed.

End U32_facts.

(** ** Per-line sizes of a texture copy *)

Section TextureCopy.

Import texture_copy.

Lemma InputBytesPerLine_exact (c : t) :
  InputBytesPerLine c = Z.land (input_size_with_padding c) 0xffff * 16.
Proof. apply steps_exact, low_half_range. Qed.

Lemma OutputBytesPerLine_exact (c : t) :
  OutputBytesPerLine c = Z.land (output_size_with_padding c) 0xffff * 16.
Proof. apply steps_exact, low_half_range. Qed.

Lemma InputPaddingBytesPerLine_exact (c : t) :
  U32.is_u32 (input_size_with_padding c) ->
  InputPaddingBytesPerLine c = Z.shiftr (input_size_with_padding c) 16 * 16.
Proof. intros H. apply steps_exact, high_half_range, H. Qed.

Lemma OutputPaddingBytesPerLine_exact (c : t) :
  U32.is_u32 (output_size_with_padding c) ->
  OutputPaddingBytesPerLine c = Z.shiftr (output_size_with_padding c) 16 * 16.
Proof. intros H. apply steps_exact, high_half_range, H. Qed.

(** C2, as the code has it: for every 32-bit value of
    input_size_with_padding (and of output_size_with_padding), the bytes to
    copy per line are the low 16 bits times 16 and the padding bytes per
    line are the high 16 bits times 16, the fields counting 16-byte
    steps. *)
Theorem bytes_per_line_in_steps (c : t) :
  U32.is_u32 (input_size_with_padding c) ->
  U32.is_u32 (output_size_with_padding c) ->
  InputBytesPerLine c = Z.land (input_size_with_padding c) 0xffff * 16 /\
  InputPaddingBytesPerLine c = Z.shiftr (input_size_with_padding c) 16 * 16 /\
  OutputBytesPerLine c = Z.land (output_size_with_padding c) 0xffff * 16 /\
  OutputPaddingBytesPerLine c = Z.shiftr (output_size_with_padding c) 16 * 16.
Proof.
  intros Hin Hout. repeat split.
  - apply InputBytesPerLine_exact.
  - apply InputPaddingBytesPerLine_exact, Hin.
  - apply OutputBytesPerLine_exact.
  - apply OutputPaddingBytesPerLine_exact, Hout.
Qed.

Lemma bytes_per_line_in_steps_witness :
  let c := Build 0x2000 0x00050010 0x00020008 in
  InputBytesPerLine c = 0x10 * 16 /\
  InputPaddingBytesPerLine c = 0x5 * 16 /\
  OutputBytesPerLine c = 0x8 * 16 /\
  OutputPaddingBytesPerLine c = 0x2 * 16.
Proof.
  apply (bytes_per_line_in_steps (Build 0x2000 0x00050010 0x00020008));
    vm_compute; split; congruence.
Defined.

(** The accessors do not return the raw halves of the field: with
    0x00050010 stored, neither the input nor the output accessors equal
    the masked or shifted field. *)
Lemma bytes_per_line_not_raw_halves :
  let c := Build 0 0x00050010 0x00050010 in
  InputBytesPerLine c <> Z.land (input_size_with_padding c) 0xffff /\
  InputPaddingBytesPerLine c <> Z.shiftr (input_size_with_padding c) 16 /\
  OutputBytesPerLine c <> Z.land (output_size_with_padding c) 0xffff /\
  OutputPaddingBytesPerLine c <> Z.shiftr (output_size_with_padding c) 16.
Proof. vm_compute. repeat split; discriminate. Qed.

(** C6: with 0x00050010 in input_size_with_padding, InputBytesPerLine() is
    256, InputPaddingBytesPerLine() is 80 and InputTotalBytesPerLine() is
    336, whatever the other two fields hold. *)
Theorem input_line_example (total output : Z) :
  let c := Build total 0x00050010 output in
  InputBytesPerLine c = 256 /\
  InputPaddingBytesPerLine c = 80 /\
  InputTotalBytesPerLine c = 336.
Proof. repeat split. Qed.

(** C10: for every 32-bit value of the two size fields, each total is the
    sum of the bytes to copy and the padding bytes of its line, and all six
    per-line quantities are multiples of 16. *)
Theorem totals_and_granularity (c : t) :
  U32.is_u32 (input_size_with_padding c) ->
  U32.is_u32 (output_size_with_padding c) ->
  InputTotalBytesPerLine c = InputBytesPerLine c + InputPaddingBytesPerLine c /\
  OutputTotalBytesPerLine c = OutputBytesPerLine c + OutputPaddingBytesPerLine c /\
  (16 | InputBytesPerLine c) /\
  (16 | InputPaddingBytesPerLine c) /\
  (16 | InputTotalBytesPerLine c) /\
  (16 | OutputBytesPerLine c) /\
  (16 | OutputPaddingBytesPerLine c) /\
  (16 | OutputTotalBytesPerLine c).
Proof.
  intros Hin Hout.
  pose proof (low_half_range (input_size_with_padding c)) as Li.
  pose proof (low_half_range (output_size_with_padding c)) as Lo.
  pose proof (high_half_range _ Hin) as Hi.
  pose proof (high_half_range _ Hout) as Ho.
  assert (Ti : InputTotalBytesPerLine c
               = InputBytesPerLine c + InputPaddingBytesPerLine c).
  { unfold InputTotalBytesPerLine, U32.add. apply wrap_small.
    rewrite InputBytesPerLine_exact, InputPaddingBytesPerLine_exact by done.
    unfold U32.is_u32, U32.and, U32.shr in *. rewrite u32_modulus. lia. }
  assert (To : OutputTotalBytesPerLine c
               = OutputBytesPerLine c + OutputPaddingBytesPerLine c).
  { unfold OutputTotalBytesPerLine, U32.add. apply wrap_small.
    rewrite OutputBytesPerLine_exact, OutputPaddingBytesPerLine_exact by done.
    unfold U32.is_u32, U32.and, U32.shr in *. rewrite u32_modulus. lia. }
  rewrite Ti, To.
  rewrite InputBytesPerLine_exact, OutputBytesPerLine_exact.
  rewrite InputPaddingBytesPerLine_exact, OutputPaddingBytesPerLine_exact by done.
  repeat split; try reflexivity.
  all: repeat apply Z.divide_add_r; apply Z.divide_factor_r.
Qed.

Lemma totals_and_granularity_witness :
  let c := Build 0x2000 0xffffffff 0x00020008 in
  InputTotalBytesPerLine c = InputBytesPerLine c + InputPaddingBytesPerLine c /\
  OutputTotalBytesPerLine c = OutputBytesPerLine c + OutputPaddingBytesPerLine c /\
  (16 | InputBytesPerLine c) /\
  (16 | InputPaddingBytesPerLine c) /\
  (16 | InputTotalBytesPerLine c) /\
  (16 | OutputBytesPerLine c) /\
  (16 | OutputPaddingBytesPerLine c) /\
  (16 | OutputTotalBytesPerLine c).
Proof.
  apply (totals_and_granularity (Build 0x2000 0xffffffff 0x00020008));
    vm_compute; split; congruence.
Defined.

End TextureCopy.

(** ** Physical addresses *)

Lemma DecodeAddressRegister_range (x : Z) : U32.is_u32 (DecodeAddressRegister x).
Proof. apply Z.mod_pos_bound. reflexivity. Qed.

Lemma DecodeAddressRegister_exact (x : Z) :
  0 <= x < 2 ^ 29 -> DecodeAddressRegister x = x * 8.
Proof.
  intros H. apply wrap_small. unfold U32.is_u32. rewrite u32_modulus.
  change (2 ^ 29) with 536870912 in H. lia.
Qed.

(** C5: the address decoding returns x*8 reduced modulo 2^32 for every
    register value x, in particular 0 for 0 and 0xFFFFFFF8 for 0xFFFFFFFF,
    and the memory-fill addresses, the display-transfer addresses and the
    command-list address all go through this one function. *)
Theorem decode_is_times_eight :
  (forall x : Z, DecodeAddressRegister x = (x * 8) mod 2 ^ 32) /\
  DecodeAddressRegister 0 = 0 /\
  DecodeAddressRegister 0xFFFFFFFF = (0xFFFFFFFF * 8) mod 2 ^ 32 /\
  DecodeAddressRegister 0xFFFFFFFF = 0xFFFFFFF8 /\
  (forall c, memory_fill_config.GetStartAddress c
             = (memory_fill_config.address_start c * 8) mod 2 ^ 32) /\
  (forall c, memory_fill_config.GetEndAddress c
             = (memory_fill_config.address_end c * 8) mod 2 ^ 32) /\
  (forall c, display_transfer_config.GetPhysicalInputAddress c
             = (display_transfer_config.input_address c * 8) mod 2 ^ 32) /\
  (forall c, display_transfer_config.GetPhysicalOutputAddress c
             = (display_transfer_config.output_address c * 8) mod 2 ^ 32) /\
  (forall c, command_processor_config.GetPhysicalAddress c
             = (command_processor_config.address c * 8) mod 2 ^ 32).
Proof. repeat split. Qed.

(** ** Framebuffer formats *)

Section Formats.

Import Dispatch.

Lemma lookup_format_outside (raw : Z) :
  ~ (0 <= raw <= 4) -> lookup_format (FramebufferFormat.Build raw) = Fail InvalidFormat.
Proof.
  intros H. unfold lookup_format. cbn [FramebufferFormat.raw].
  rewrite bool_decide_eq_false_2; [reflexivity|].
  cbn [FramebufferFormat.format_map length]. lia.
Qed.

Lemma lookup_format_inside (raw : Z) :
  0 <= raw <= 4 ->
  lookup_format (FramebufferFormat.Build raw)
  = of_option InvalidFormat ([RGBA8; RGB8; RGB565; RGBA5551; RGBA4] !! Z.to_nat raw).
Proof.
  intros H. unfold lookup_format. cbn [FramebufferFormat.raw].
  rewrite bool_decide_eq_true_2; [reflexivity|].
  cbn [FramebufferFormat.format_map length]. lia.
Qed.

(** C7: the format table maps exactly 0 to RGBA8, 1 to RGB8, 2 to RGB565,
    3 to RGBA5551 and 4 to RGBA4; looking up 2 gives RGB565, and looking up
    any value outside 0..4, such as 5, is InvalidFormat. *)
Theorem format_lookup_table :
  FramebufferFormat.format_map !! 0%nat = Some RGBA8 /\
  FramebufferFormat.format_map !! 1%nat = Some RGB8 /\
  FramebufferFormat.format_map !! 2%nat = Some RGB565 /\
  FramebufferFormat.format_map !! 3%nat = Some RGBA5551 /\
  FramebufferFormat.format_map !! 4%nat = Some RGBA4 /\
  length FramebufferFormat.format_map = 5%nat /\
  (forall raw f,
     lookup_format (FramebufferFormat.Build raw) = Ok f <->
     (raw = 0 /\ f = RGBA8) \/ (raw = 1 /\ f = RGB8) \/ (raw = 2 /\ f = RGB565) \/
     (raw = 3 /\ f = RGBA5551) \/ (raw = 4 /\ f = RGBA4)) /\
  lookup_format (FramebufferFormat.Build 2) = Ok RGB565 /\
  lookup_format (FramebufferFormat.Build 5) = Fail InvalidFormat /\
  (forall raw, ~ (0 <= raw <= 4) ->
     lookup_format (FramebufferFormat.Build raw) = Fail InvalidFormat).
Proof.
  repeat match goal with |- _ /\ _ => split end; try reflexivity.
  - intros raw f. split.
    + intros H. destruct (decide (0 <= raw <= 4)) as [Hin|Hout].
      * assert (raw = 0 \/ raw = 1 \/ raw = 2 \/ raw = 3 \/ raw = 4)
          as [->|[->|[->|[->| ->]]]] by lia;
          vm_compute in H; injection H as <-; tauto.
      * rewrite lookup_format_outside in H by assumption. discriminate.
    + intros [[-> ->]|[[-> ->]|[[-> ->]|[[-> ->]|[-> ->]]]]]; reflexivity.
  - apply lookup_format_outside.
Qed.

End Formats.

(** ** Word-indexed access *)

Section Subscript.

Lemma NumIds_value : Regs.NumIds = 4096.
Proof. reflexivity. Qed.

Lemma sizeof_Regs_value : Regs.sizeof = 16384.
Proof. reflexivity. Qed.

Lemma Regs_contents_length (m : Memory.t) (this : Z) :
  length (Regs_contents m this) = Z.to_nat Regs.NumIds.
Proof. unfold Regs_contents. rewrite length_fmap, length_seqZ. reflexivity. Qed.

Lemma Regs_contents_lookup (m : Memory.t) (this index : Z) :
  0 <= index < Regs.NumIds ->
  Regs_contents m this !! Z.to_nat index
  = Some (Memory.load m (Regs_subscript this index)).
Proof.
  intros H. unfold Regs_contents, Regs_subscript.
  rewrite list_lookup_fmap, lookup_seqZ_lt by lia.
  cbn. replace (0 + Z.of_nat (Z.to_nat index)) with index by lia.
  reflexivity.
Qed.

(** A store through the reference updates that word of the register file
    and no other. *)
Lemma Regs_contents_store (m : Memory.t) (this index value : Z) :
  0 <= index < Regs.NumIds ->
  Regs_contents (Memory.store m (Regs_subscript this index) value) this
  = <[Z.to_nat index := value]> (Regs_contents m this).
Proof.
  intros H. apply list_eq. intros k.
  destruct (decide (k = Z.to_nat index)) as [->|Hne].
  - rewrite list_lookup_insert_eq
      by (rewrite Regs_contents_length; lia).
    rewrite Regs_contents_lookup by assumption.
    unfold Memory.load, Memory.store. rewrite bool_decide_eq_true_2; done.
  - rewrite list_lookup_insert_ne by congruence.
    unfold Regs_contents. rewrite !list_lookup_fmap.
    destruct (seqZ 0 Regs.NumIds !! k) as [i|] eqn:Hk; [|reflexivity].
    apply lookup_seqZ in Hk as [-> Hk]. cbn.
    unfold Memory.load, Memory.store, Regs_subscript.
    rewrite bool_decide_eq_false_2; [reflexivity|].
    unfold sizeof_u32. lia.
Qed.

(** A store through a reference to a word outside the register file
    leaves every word of the register file as it was. *)
Lemma Regs_contents_store_outside (m : Memory.t) (this index value : Z) :
  ~ (0 <= index < Regs.NumIds) ->
  Regs_contents (Memory.store m (Regs_subscript this index) value) this
  = Regs_contents m this.
Proof.
  intros Hout. unfold Regs_contents. apply list_eq. intros k.
  rewrite !list_lookup_fmap.
  destruct (seqZ 0 Regs.NumIds !! k) as [i|] eqn:Hk; [|reflexivity].
  apply lookup_seqZ in Hk as [-> Hk]. cbn.
  unfold Memory.load, Memory.store, Regs_subscript.
  rewrite bool_decide_eq_false_2; [reflexivity|].
  unfold sizeof_u32. lia.
Qed.

(** C3, as the code has it: word-indexed access checks nothing and refuses
    nothing.  For every index, in range or not, the reference is to the
    word at byte offset 4 * index from the start of the register file, and
    a store through it takes effect there.  That word lies inside the
    4096-word array exactly when the index is in [0,4095]; the words of
    the register file are those the indices 0 to 4095 refer to, and a
    store through the reference changes word [index] of the register file
    for an index in [0,4095] and no word of it otherwise. *)
Theorem subscript_unchecked (m : Memory.t) (this index value : Z) :
  Regs_subscript this index = this + 4 * index /\
  (inside_Regs this (Regs_subscript this index) <-> 0 <= index <= 4095) /\
  Memory.load (Memory.store m (Regs_subscript this index) value)
    (Regs_subscript this index) = value /\
  Regs_contents m this
  = (fun k => Memory.load m (Regs_subscript this k)) <$> seqZ 0 4096 /\
  Regs_contents (Memory.store m (Regs_subscript this index) value) this
  = if bool_decide (0 <= index <= 4095)
    then <[Z.to_nat index := value]> (Regs_contents m this)
    else Regs_contents m this.
Proof.
  pose proof NumIds_value as HN.
  split; [unfold Regs_subscript, sizeof_u32; lia|].
  split; [unfold inside_Regs, Regs_subscript, sizeof_u32;
          rewrite sizeof_Regs_value; lia|].
  split; [unfold Memory.load, Memory.store;
          rewrite bool_decide_eq_true_2; reflexivity|].
  split; [reflexivity|].
  case_bool_decide as Hin.
  - apply Regs_contents_store. lia.
  - apply Regs_contents_store_outside. lia.
Qed.

(** Index 4096 is not refused: the reference is to the word right behind
    the register file, a load through it returns what is stored there, and
    a store through it changes that word and leaves the register file as it
    was.  Index -1 reaches the word in front of it the same way. *)
Lemma subscript_past_the_end :
  let m : Memory.t := Memory.store (fun _ => 0) 16384 0xDEADBEEF in
  Regs_subscript 0 4096 = 16384 /\
  ~ inside_Regs 0 (Regs_subscript 0 4096) /\
  Memory.load m (Regs_subscript 0 4096) = 0xDEADBEEF /\
  Memory.load (Memory.store m (Regs_subscript 0 4096) 1) 16384 = 1 /\
  Regs_contents (Memory.store m (Regs_subscript 0 4096) 1) 0
  = Regs_contents m 0 /\
  Regs_subscript 0 (-1) = -4 /\
  ~ inside_Regs 0 (Regs_subscript 0 (-1)).
Proof.
  intros m. subst m.
  repeat match goal with |- _ /\ _ => split end.
  - reflexivity.
  - unfold inside_Regs. rewrite sizeof_Regs_value.
    change (Regs_subscript 0 4096) with 16384. lia.
  - reflexivity.
  - reflexivity.
  - vm_compute. reflexivity.
  - reflexivity.
  - unfold inside_Regs. rewrite sizeof_Regs_value.
    change (Regs_subscript 0 (-1)) with (-4). lia.
Qed.

End Subscript.

(** ** Bit fields *)

Section BitFields.

Lemma mask_testbit (p b q : Z) :
  0 <= p -> 0 <= b -> 0 <= q ->
  Z.testbit (BitField.mask p b) q = bool_decide (p <= q < p + b).
Proof.
  intros Hp Hb Hq. unfold BitField.mask.
  rewrite Z.shiftl_spec by assumption.
  destruct (decide (p <= q)) as [Hle|Hlt].
  - rewrite Z.testbit_ones by assumption.
    repeat case_bool_decide; lia.
  - rewrite Z.testbit_neg_r by lia. rewrite bool_decide_eq_false_2; [done|lia].
Qed.

Lemma Assign_testbit (p b x v q : Z) :
  0 <= p -> 0 <= b -> 0 <= q ->
  Z.testbit (BitField.Assign p b x v) q
  = if bool_decide (p <= q < p + b) then Z.testbit v (q - p) else Z.testbit x q.
Proof.
  intros Hp Hb Hq. unfold BitField.Assign.
  rewrite Z.lor_spec, Z.ldiff_spec, Z.land_spec, mask_testbit by assumption.
  rewrite Z.shiftl_spec by assumption.
  case_bool_decide; cbn.
  - rewrite andb_false_r, andb_true_r. reflexivity.
  - rewrite andb_false_r, andb_true_r, orb_false_r. reflexivity.
Qed.

Lemma Value_single_bit (p x : Z) :
  0 <= p -> BitField.Value p 1 x = Z.b2z (Z.testbit x p).
Proof.
  intros Hp. unfold BitField.Value.
  rewrite Z.land_ones by lia. change (2 ^ 1) with 2.
  rewrite <- Z.bit0_mod, Z.shiftr_spec by lia.
  rewrite Z.add_0_l. reflexivity.
Qed.

End BitFields.

(** ** Register access through the dispatch interface *)

Section DispatchFacts.

Import Dispatch.

Lemma bind_Ok {A B : Type} (a : A) (f : A -> Result B) : (Ok a ≫= f) = f a.
Proof. reflexivity. Qed.

Lemma bind_Fail {A B : Type} (e : Error) (f : A -> Result B) :
  (Fail e ≫= f) = Fail e.
Proof. reflexivity. Qed.

Lemma get_word_lookup (rf : list Z) (index v : Z) :
  0 <= index -> rf !! Z.to_nat index = Some v -> get_word rf index = Ok v.
Proof.
  intros H Hv. unfold get_word. rewrite bool_decide_eq_true_2 by assumption.
  rewrite Hv. reflexivity.
Qed.

Lemma get_word_inv (rf : list Z) (index v : Z) :
  get_word rf index = Ok v -> 0 <= index /\ rf !! Z.to_nat index = Some v.
Proof.
  unfold get_word. case_bool_decide; [|discriminate].
  destruct (rf !! Z.to_nat index) eqn:E; cbn; [|discriminate].
  intros [= ->]. split; [assumption|reflexivity].
Qed.

Lemma get_word_total (rf : list Z) (index : Z) :
  0 <= index < Z.of_nat (length rf) -> exists v, get_word rf index = Ok v.
Proof.
  intros H. destruct (lookup_lt_is_Some_2 rf (Z.to_nat index)) as [v Hv]; [lia|].
  exists v. apply get_word_lookup; [lia|assumption].
Qed.

Lemma get_word_insert_eq (rf : list Z) (index v : Z) :
  0 <= index < Z.of_nat (length rf) ->
  get_word (<[Z.to_nat index := v]> rf) index = Ok v.
Proof.
  intros H. apply get_word_lookup; [lia|].
  apply list_lookup_insert_eq. lia.
Qed.

Lemma get_word_insert_ne (rf : list Z) (index other v : Z) :
  0 <= index -> 0 <= other -> index <> other ->
  get_word (<[Z.to_nat index := v]> rf) other = get_word rf other.
Proof.
  intros Hi Ho Hne. unfold get_word.
  rewrite list_lookup_insert_ne by lia. reflexivity.
Qed.

Lemma trigger_indices :
  Regs.GPU_REG_INDEX (trigger_word (MemoryFillEngine 0)) = Some 0x007 /\
  Regs.GPU_REG_INDEX (trigger_word (MemoryFillEngine 1)) = Some 0x00b /\
  Regs.GPU_REG_INDEX (trigger_word DisplayTransferEngine) = Some 0x306 /\
  Regs.GPU_REG_INDEX (trigger_word CommandProcessorEngine) = Some 0x63c.
Proof. repeat split. Qed.

Lemma engine_at_cases (index : Z) :
  engine_at index =
    if bool_decide (index = 0x007) then Some (MemoryFillEngine 0)
    else if bool_decide (index = 0x00b) then Some (MemoryFillEngine 1)
    else if bool_decide (index = 0x306) then Some DisplayTransferEngine
    else if bool_decide (index = 0x63c) then Some CommandProcessorEngine
    else None.
Proof.
  destruct trigger_indices as (E0 & E1 & E2 & E3).
  unfold engine_at, engines. cbn [List.find].
  rewrite E0, E1, E2, E3.
  repeat case_bool_decide; congruence.
Qed.

(** A byte offset inside the register space selects a word of the
    register file. *)
Lemma word_index_in_range (dev : Device) (addr : Z) :
  well_formed dev -> 0 <= addr < Regs.sizeof ->
  0 <= addr / sizeof_u32 < Z.of_nat (length (regs dev)).
Proof.
  intros Hwf Haddr. rewrite Hwf, NumIds_value.
  rewrite sizeof_Regs_value in Haddr. unfold sizeof_u32.
  split; [apply Z.div_pos; lia|].
  rewrite Z2Nat.id by lia. apply Z.div_lt_upper_bound; lia.
Qed.

Lemma set_word_length (rf rf' : list Z) (index value : Z) :
  set_word rf index value = Ok rf' -> length rf' = length rf.
Proof.
  unfold set_word. case_bool_decide; [|discriminate].
  intros [= <-]. apply length_insert.
Qed.

Lemma set_reg_length (rf rf' : list Z) (d : Designator) (value : Z) :
  set_reg rf d value = Ok rf' -> length rf' = length rf.
Proof.
  unfold set_reg. destruct (Regs.GPU_REG_INDEX d) as [k|]; [|discriminate].
  apply set_word_length.
Qed.

(** No engine changes the number of registers. *)
Lemma run_engine_length (dev dev' : Device) (e : Engine) :
  run_engine dev e = Ok dev' -> length (regs dev') = length (regs dev).
Proof.
  destruct e as [i| |]; cbn [run_engine].
  - unfold memory_fill.
    destruct (memory_fill_view (regs dev) i) as [c|]; [|intros [=]].
    cbn [mbind Result_bind].
    destruct (set_reg _ _ _) as [rf|] eqn:E; cbn [mbind Result_bind];
      [|intros [=]].
    intros [= <-]. cbn [regs]. eapply set_reg_length, E.
  - unfold display_transfer.
    destruct (display_transfer_view (regs dev)) as [c|]; [|intros [=]].
    cbn [mbind Result_bind].
    case_bool_decide.
    + intros [= <-]. reflexivity.
    + destruct (lookup_format (display_transfer_config.GetInputFormat c));
        cbn [mbind Result_bind]; [|intros [=]].
      destruct (lookup_format (display_transfer_config.GetOutputFormat c));
        cbn [mbind Result_bind]; [|intros [=]].
      intros [= <-]. reflexivity.
  - unfold command_processor.
    destruct (command_processor_view (regs dev)) as [c|]; [|intros [=]].
    intros [= <-]. reflexivity.
Qed.

(** A write leaves the register file 4096 words long. *)
Lemma Write_well_formed (dev dev' : Device) (addr data : Z) :
  well_formed dev -> Write dev addr data = Ok dev' -> well_formed dev'.
Proof.
  unfold well_formed, Write. intros Hwf.
  case_bool_decide; [|discriminate].
  destruct (get_word _ _) as [old|]; cbn [mbind Result_bind]; [|intros [=]].
  destruct (set_word _ _ _) as [rf|] eqn:E; cbn [mbind Result_bind];
    [|intros [=]].
  apply set_word_length in E.
  destruct (engine_at _) as [e|]; [case_bool_decide|].
  - intros H'. apply run_engine_length in H'. cbn [regs] in H'. congruence.
  - intros [= <-]. cbn [regs]. congruence.
  - intros [= <-]. cbn [regs]. congruence.
Qed.

(** Offsets beyond the register space are refused by both entry points. *)
Lemma out_of_range_refused (dev : Device) (addr data : Z) :
  ~ (0 <= addr < Regs.sizeof) ->
  Read dev addr = Fail OutOfRange /\ Write dev addr data = Fail OutOfRange.
Proof.
  intros H. unfold Read, Write.
  rewrite !bool_decide_eq_false_2 by assumption. split; reflexivity.
Qed.

Lemma Write_plain (dev : Device) (addr data : Z) :
  well_formed dev -> 0 <= addr < Regs.sizeof ->
  engine_at (addr / sizeof_u32) = None ->
  Write dev addr data
  = Ok (Build (<[Z.to_nat (addr / sizeof_u32) := data]> (regs dev)) (calls dev)).
Proof.
  intros Hwf Haddr Hnone. unfold Write.
  rewrite bool_decide_eq_true_2 by assumption.
  pose proof (word_index_in_range _ _ Hwf Haddr) as Hidx.
  destruct (get_word_total _ _ Hidx) as [old ->].
  unfold set_word. rewrite bool_decide_eq_true_2 by assumption.
  rewrite !bind_Ok, Hnone. reflexivity.
Qed.

(** C8: for every valid byte offset o whose word is a named register and
    not one of the trigger words, and every value v, Write(o, v) succeeds
    and the Read(o) that follows returns v; nothing is delegated. *)
Theorem write_then_read (dev : Device) (o v : Z) :
  well_formed dev -> valid_offset o -> named_offset o -> ~ trigger_offset o ->
  exists dev', Write dev o v = Ok dev' /\ Read dev' o = Ok v /\
               calls dev' = calls dev.
Proof.
  intros Hwf [Hrange Haligned] _ Hnt.
  assert (engine_at (o / sizeof_u32) = None) as Hnone.
  { unfold trigger_offset in Hnt. destruct (engine_at _); [|reflexivity].
    exfalso. apply Hnt. eexists. reflexivity. }
  eexists. split; [apply Write_plain; assumption|]. split; [|reflexivity].
  unfold Read. rewrite bool_decide_eq_true_2 by assumption. cbn [regs].
  apply get_word_insert_eq, word_index_in_range; assumption.
Qed.

Lemma write_then_read_witness :
  exists dev', Write reset 0x10 0x1234 = Ok dev' /\ Read dev' 0x10 = Ok 0x1234 /\
               calls dev' = calls reset.
Proof.
  apply (write_then_read reset 0x10 0x1234).
  - reflexivity.
  - split; [split|]; vm_compute; congruence.
  - eexists. vm_compute. reflexivity.
  - intros [e He]. vm_compute in He. discriminate.
Defined.

End DispatchFacts.

(** ** The memory-fill engine *)

Section Engines.

Import Dispatch.

Lemma memory_fill_view_words (rf : list Z) (i : Z) :
  i = 0 \/ i = 1 ->
  memory_fill_view rf i =
    (address_start ← get_word rf (4 * i + 4);
     address_end ← get_word rf (4 * i + 5);
     value_32bit ← get_word rf (4 * i + 6);
     control ← get_word rf (4 * i + 7);
     mret (memory_fill_config.Build address_start address_end value_32bit control)).
Proof. intros [-> | ->]; reflexivity. Qed.

Lemma memory_fill_view_inv (rf : list Z) (i : Z) (c : memory_fill_config.t) :
  i = 0 \/ i = 1 ->
  memory_fill_view rf i = Ok c ->
  get_word rf (4 * i + 4) = Ok (memory_fill_config.address_start c) /\
  get_word rf (4 * i + 5) = Ok (memory_fill_config.address_end c) /\
  get_word rf (4 * i + 6) = Ok (memory_fill_config.value_32bit c) /\
  get_word rf (4 * i + 7) = Ok (memory_fill_config.control c).
Proof.
  intros Hi. rewrite memory_fill_view_words by assumption.
  destruct (get_word rf (4 * i + 4)); [|discriminate].
  destruct (get_word rf (4 * i + 5)); [|discriminate].
  destruct (get_word rf (4 * i + 6)); [|discriminate].
  destruct (get_word rf (4 * i + 7)); [|discriminate].
  intros [= <-]. repeat split.
Qed.

Lemma memory_fill_view_insert (rf : list Z) (i k v : Z) :
  i = 0 \/ i = 1 -> 0 <= k -> ~ (4 * i + 4 <= k <= 4 * i + 7) ->
  memory_fill_view (<[Z.to_nat k := v]> rf) i = memory_fill_view rf i.
Proof.
  intros Hi Hk Hout. rewrite !memory_fill_view_words by assumption.
  rewrite !get_word_insert_ne by lia. reflexivity.
Qed.

Lemma memory_fill_control_offset (i addr : Z) :
  i = 0 \/ i = 1 ->
  Regs.offset (trigger_word (MemoryFillEngine i)) = Some addr ->
  addr = 4 * (4 * i + 7).
Proof. intros [-> | ->] [= <-]; reflexivity. Qed.

Lemma done_bits (data : Z) :
  let done := BitField.Assign 0 1 (BitField.Assign 1 1 data 1) 0 in
  BitField.Value 0 1 done = 0 /\ BitField.Value 1 1 done = 1 /\
  forall q, 2 <= q -> Z.testbit done q = Z.testbit data q.
Proof.
  intros done. subst done. rewrite !Value_single_bit by lia.
  split; [|split].
  - rewrite Assign_testbit by lia. reflexivity.
  - rewrite !Assign_testbit by lia. reflexivity.
  - intros q Hq. rewrite !Assign_testbit by lia.
    rewrite !bool_decide_eq_false_2 by lia. reflexivity.
Qed.

(** C4: for i in {0,1}, a write to memory_fill_config[i].control that takes
    the trigger bit (bit 0) from 0 to 1 succeeds, and once the fill has
    completed the control word has finished (bit 1) = 1 and trigger = 0;
    the address and value registers of unit i are as before, and the
    registers of the other unit are unchanged. *)
Theorem memory_fill_trigger (dev : Device) (i addr data : Z)
    (c : memory_fill_config.t) :
  well_formed dev ->
  i = 0 \/ i = 1 ->
  Regs.offset (trigger_word (MemoryFillEngine i)) = Some addr ->
  memory_fill_view (regs dev) i = Ok c ->
  memory_fill_config.trigger c = 0 ->
  trigger_bit data = 1 ->
  exists dev' c',
    Write dev addr data = Ok dev' /\
    memory_fill_view (regs dev') i = Ok c' /\
    memory_fill_config.finished c' = 1 /\
    memory_fill_config.trigger c' = 0 /\
    memory_fill_config.address_start c' = memory_fill_config.address_start c /\
    memory_fill_config.address_end c' = memory_fill_config.address_end c /\
    memory_fill_config.value_32bit c' = memory_fill_config.value_32bit c /\
    memory_fill_view (regs dev') (1 - i) = memory_fill_view (regs dev) (1 - i).
Proof.
  intros Hwf Hi Hoff Hview Hold Hnew.
  apply memory_fill_control_offset in Hoff as ->; [|assumption].
  pose proof (memory_fill_view_inv _ _ _ Hi Hview) as (Ha & Hb & Hv & Hk).
  set (done := BitField.Assign 0 1 (BitField.Assign 1 1 data 1) 0).
  destruct (done_bits data) as (Ht & Hf & _). fold done in Ht, Hf.
  assert (length (regs dev) = 4096%nat) as Hlen by exact Hwf.
  set (k := 4 * i + 7).
  assert (0 <= k < Z.of_nat (length (regs dev))) as Hidx by (subst k; lia).
  exists (Build (<[Z.to_nat k := done]> (<[Z.to_nat k := data]> (regs dev)))
            (calls dev ++
               [MemoryFill (DecodeAddressRegister (memory_fill_config.address_start c))
                  (DecodeAddressRegister (memory_fill_config.address_end c))
                  (fill_value (memory_fill_config.Build
                     (memory_fill_config.address_start c)
                     (memory_fill_config.address_end c)
                     (memory_fill_config.value_32bit c) data))])),
    (memory_fill_config.Build (memory_fill_config.address_start c)
       (memory_fill_config.address_end c) (memory_fill_config.value_32bit c) done).
  assert (forall rf' : list Z, length rf' = length (regs dev) ->
            forall w, memory_fill_view (<[Z.to_nat k := w]> rf') i
            = (address_start ← get_word rf' (4 * i + 4);
               address_end ← get_word rf' (4 * i + 5);
               value_32bit ← get_word rf' (4 * i + 6);
               mret (memory_fill_config.Build address_start address_end value_32bit w)))
    as Hview'.
  { intros rf' Hrf' w. rewrite memory_fill_view_words by assumption.
    rewrite (get_word_insert_ne _ k (4 * i + 4)),
      (get_word_insert_ne _ k (4 * i + 5)),
      (get_word_insert_ne _ k (4 * i + 6)) by (subst k; lia).
    fold k. rewrite get_word_insert_eq by (rewrite Hrf'; assumption).
    destruct (get_word rf' (4 * i + 4)); [|reflexivity].
    destruct (get_word rf' (4 * i + 5)); [|reflexivity].
    destruct (get_word rf' (4 * i + 6)); reflexivity. }
  split; [|split; [|repeat split; try assumption]].
  - assert (trigger_bit (memory_fill_config.control c) = 0) as Hold' by exact Hold.
    unfold Write.
    rewrite bool_decide_eq_true_2
      by (rewrite sizeof_Regs_value; subst k; lia).
    replace (4 * k / sizeof_u32) with k
      by (unfold sizeof_u32; rewrite Z.mul_comm, Z.div_mul; lia).
    fold k in Hk. rewrite Hk, bind_Ok.
    unfold set_word at 1. rewrite (bool_decide_eq_true_2 _ Hidx), bind_Ok.
    replace (engine_at k) with (Some (MemoryFillEngine i))
      by (subst k; destruct Hi as [-> | ->]; reflexivity).
    rewrite (bool_decide_eq_true_2 _ (conj Hold' Hnew)).
    unfold run_engine, memory_fill. cbn [regs calls].
    rewrite Hview' by reflexivity.
    rewrite Ha, Hb, Hv, !bind_Ok.
    unfold set_reg.
    replace (Regs.GPU_REG_INDEX (trigger_word (MemoryFillEngine i)))
      with (Some k) by (subst k; destruct Hi as [-> | ->]; reflexivity).
    cbn [of_option]. rewrite bind_Ok.
    unfold set_word. rewrite bool_decide_eq_true_2
      by (rewrite length_insert; assumption).
    reflexivity.
  - cbn [regs]. rewrite Hview' by (rewrite length_insert; reflexivity).
    rewrite !get_word_insert_ne by (subst k; lia).
    rewrite Ha, Hb, Hv. reflexivity.
  - cbn [regs]. rewrite !memory_fill_view_insert; [reflexivity|..];
      subst k; lia.
Qed.

Lemma memory_fill_trigger_witness :
  exists dev' c',
    Write reset 44 0x301 = Ok dev' /\
    memory_fill_view (regs dev') 1 = Ok c' /\
    memory_fill_config.finished c' = 1 /\
    memory_fill_config.trigger c' = 0 /\
    memory_fill_config.address_start c' = 0 /\
    memory_fill_config.address_end c' = 0 /\
    memory_fill_config.value_32bit c' = 0 /\
    memory_fill_view (regs dev') (1 - 1) = memory_fill_view (regs reset) (1 - 1).
Proof.
  apply (memory_fill_trigger reset 1 44 0x301 (memory_fill_config.Build 0 0 0 0)).
  - reflexivity.
  - right. reflexivity.
  - reflexivity.
  - vm_compute. reflexivity.
  - reflexivity.
  - reflexivity.
Defined.

End Engines.

(** ** The command processor *)

Section CommandProcessor.

Import Dispatch.

Lemma command_processor_view_words (rf : list Z) :
  command_processor_view rf =
    (size ← get_word rf 0x638;
     address ← get_word rf 0x63a;
     trigger ← get_word rf 0x63c;
     mret (command_processor_config.Build size address trigger)).
Proof. reflexivity. Qed.

Lemma command_processor_view_inv (rf : list Z) (c : command_processor_config.t) :
  command_processor_view rf = Ok c ->
  get_word rf 0x638 = Ok (command_processor_config.size c) /\
  get_word rf 0x63a = Ok (command_processor_config.address c) /\
  get_word rf 0x63c = Ok (command_processor_config.trigger c).
Proof.
  rewrite command_processor_view_words.
  destruct (get_word rf 0x638); [|discriminate].
  destruct (get_word rf 0x63a); [|discriminate].
  destruct (get_word rf 0x63c); [|discriminate].
  intros [= <-]. repeat split.
Qed.

(** C9: with command_processor_config.size = 4 and
    command_processor_config.address = 0x1000, a write that takes the
    trigger bit of command_processor_config.trigger from 0 to 1 hands the
    command-list collaborator physical_address = 0x8000 and
    unit_count = 4, as its one new call. *)
Theorem command_processor_trigger (dev : Device) (addr data : Z)
    (c : command_processor_config.t) :
  well_formed dev ->
  Regs.offset (trigger_word CommandProcessorEngine) = Some addr ->
  command_processor_view (regs dev) = Ok c ->
  command_processor_config.size c = 4 ->
  command_processor_config.address c = 0x1000 ->
  trigger_bit (command_processor_config.trigger c) = 0 ->
  trigger_bit data = 1 ->
  exists dev',
    Write dev addr data = Ok dev' /\
    calls dev' = calls dev ++ [CommandList 0x8000 4] /\
    regs dev' = <[Z.to_nat 0x63c := data]> (regs dev).
Proof.
  intros Hwf Hoff Hview Hsize Haddress Hold Hnew.
  assert (addr = 4 * 0x63c) as -> by (injection Hoff as <-; reflexivity).
  clear Hoff.
  apply command_processor_view_inv in Hview as (Hs & Ha & Ht).
  assert (length (regs dev) = 4096%nat) as Hlen by exact Hwf.
  assert (0 <= 0x63c < Z.of_nat (length (regs dev))) as Hidx by lia.
  exists (Build (<[Z.to_nat 0x63c := data]> (regs dev))
            (calls dev ++ [CommandList 0x8000 4])).
  split; [|split; reflexivity].
  unfold Write.
  rewrite bool_decide_eq_true_2 by (rewrite sizeof_Regs_value; lia).
  change (4 * 0x63c / sizeof_u32) with 0x63c.
  rewrite Ht, bind_Ok.
  unfold set_word. rewrite (bool_decide_eq_true_2 _ Hidx), bind_Ok.
  change (engine_at 0x63c) with (Some CommandProcessorEngine).
  rewrite (bool_decide_eq_true_2 _ (conj Hold Hnew)).
  unfold run_engine, command_processor. cbn [regs calls].
  rewrite command_processor_view_words.
  rewrite (get_word_insert_ne _ 0x63c 0x638), (get_word_insert_ne _ 0x63c 0x63a)
    by lia.
  rewrite get_word_insert_eq by assumption.
  rewrite Hs, Ha, !bind_Ok.
  unfold command_processor_config.GetPhysicalAddress.
  cbn [command_processor_config.address command_processor_config.size].
  rewrite Hsize, Haddress. reflexivity.
Qed.

Lemma command_processor_trigger_witness :
  exists dev',
    Write command_list_ready 0x18f0 1 = Ok dev' /\
    calls dev' = calls command_list_ready ++ [CommandList 0x8000 4] /\
    regs dev' = <[Z.to_nat 0x63c := 1]> (regs command_list_ready).
Proof.
  apply (command_processor_trigger command_list_ready 0x18f0 1
           (command_processor_config.Build 4 0x1000 0)).
  - reflexivity.
  - reflexivity.
  - vm_compute. reflexivity.
  - reflexivity.
  - reflexivity.
  - reflexivity.
  - reflexivity.
Defined.

End CommandProcessor.

(** * Further properties of the header *)

(** ** Layouts in general *)

Section LayoutFacts.

Lemma sizeof_struct_cons (m : Member) (ms : list Member) :
  sizeof_struct (m :: ms) = sizeof_member m + sizeof_struct ms.
Proof. reflexivity. Qed.

Lemma sizeof_struct_aligned (ms : list Member) :
  Forall (fun m => (sizeof_u32 | sizeof_member m)) ms ->
  (sizeof_u32 | sizeof_struct ms).
Proof.
  induction 1 as [|m ms Hm _ IH].
  - apply Z.divide_0_r.
  - rewrite sizeof_struct_cons. apply Z.divide_add_r; assumption.
Qed.

Lemma sizeof_member_aligned (m : Member) : (sizeof_u32 | sizeof_member m).
Proof.
  induction m as [n|k|n c body IH] using Member_nested_ind.
  - apply Z.divide_refl.
  - apply Z.divide_factor_r.
  - cbn [sizeof_member]. apply Z.divide_mul_r.
    apply (sizeof_struct_aligned body IH).
Qed.

Lemma sizeof_element_aligned (m : Member) : (sizeof_u32 | sizeof_element m).
Proof.
  destruct m as [n|k|n c body]; try apply sizeof_member_aligned.
  apply sizeof_struct_aligned, Forall_forall. intros x _.
  apply sizeof_member_aligned.
Qed.

Lemma find_member_aligned (ms : list Member) (name : string) (off : Z) (m : Member) :
  find_member ms name = Some (off, m) -> (sizeof_u32 | off).
Proof.
  revert off. induction ms as [|x ms IH]; intros off; [intros [=]|].
  cbn [find_member]. case_bool_decide as Hname.
  - intros [= <- <-]. apply Z.divide_0_r.
  - destruct (find_member ms name) as [[off' m']|] eqn:E; [|intros [=]].
    intros [= <- <-].
    apply Z.divide_add_r; [apply sizeof_member_aligned|apply IH; reflexivity].
Qed.

(** Whatever member a designator reaches, it starts on a word boundary. *)
Lemma offsetof_aligned (d : Designator) (ms : list Member) (o : Z) :
  offsetof ms d = Some o -> (sizeof_u32 | o).
Proof.
  revert ms o. induction d as [|[name i] rest IH]; intros ms o.
  - intros [= <-]. apply Z.divide_0_r.
  - cbn [offsetof].
    destruct (find_member ms name) as [[off m]|] eqn:Hfind; [|intros [=]].
    case_bool_decide as Hi; [|intros [=]].
    destruct (offsetof (member_body m) rest) as [inner|] eqn:Hinner;
      [|intros [=]].
    intros [= <-]. repeat apply Z.divide_add_r.
    + eapply find_member_aligned, Hfind.
    + apply Z.divide_mul_r, sizeof_element_aligned.
    + eapply IH, Hinner.
Qed.

End LayoutFacts.

(** ** Register indices and subscripts *)

Section LayoutExtras.

(** Every declared register is reached by its index: for the register [d]
    behind word [i] of the layout, [offsetof(Regs, d)] is exactly
    [sizeof(u32) * i], [GPU_REG_INDEX(d)] is [i], which is below
    [NumIds()], and [regs[GPU_REG_INDEX(d)]] is the word at that offset,
    inside the register file. *)
Theorem reg_index_is_valid_subscript (i : nat) (d : Designator) :
  Regs.words !! i = Some (Some d) ->
  Regs.offset d = Some (sizeof_u32 * Z.of_nat i) /\
  Regs.GPU_REG_INDEX d = Some (Z.of_nat i) /\
  0 <= Z.of_nat i < Regs.NumIds /\
  forall this,
    Regs_subscript this (Z.of_nat i) = this + sizeof_u32 * Z.of_nat i /\
    inside_Regs this (Regs_subscript this (Z.of_nat i)).
Proof.
  intros Hw. pose proof (words_agree_with_offsets _ _ Hw) as Hidx.
  assert (i < 4096)%nat as Hlt by (apply lookup_lt_Some in Hw; exact Hw).
  split; [|split; [exact Hidx|split; [rewrite NumIds_value; lia|]]].
  - unfold Regs.GPU_REG_INDEX in Hidx.
    destruct (Regs.offset d) as [o|] eqn:Ho; [|discriminate].
    injection Hidx as Hidx.
    destruct (offsetof_aligned d _ o Ho) as [q Hq].
    unfold sizeof_u32 in *. subst o.
    rewrite Z.div_mul in Hidx by lia. subst q. f_equal. lia.
  - intros this. unfold inside_Regs, Regs_subscript, sizeof_u32.
    rewrite sizeof_Regs_value. lia.
Qed.

Lemma reg_index_is_valid_subscript_witness :
  Regs.offset [("framebuffer_config", 1); ("stride", 0)]
  = Some (sizeof_u32 * Z.of_nat 0x164) /\
  Regs.GPU_REG_INDEX [("framebuffer_config", 1); ("stride", 0)]
  = Some (Z.of_nat 0x164) /\
  0 <= Z.of_nat 0x164 < Regs.NumIds /\
  forall this,
    Regs_subscript this (Z.of_nat 0x164) = this + sizeof_u32 * Z.of_nat 0x164 /\
    inside_Regs this (Regs_subscript this (Z.of_nat 0x164)).
Proof.
  apply (reg_index_is_valid_subscript 0x164
           [("framebuffer_config", 1); ("stride", 0)]).
  vm_compute. reflexivity.
Defined.

(** Two different words of the register file are never the same named
    register, and each named register is found by [GPU_REG_INDEX] at the
    word it occupies. *)
Theorem named_registers_do_not_overlap (i j : nat) (d1 d2 : Designator) :
  Regs.words !! i = Some (Some d1) ->
  Regs.words !! j = Some (Some d2) ->
  i <> j ->
  d1 <> d2 /\
  Regs.GPU_REG_INDEX d1 = Some (Z.of_nat i) /\
  Regs.GPU_REG_INDEX d2 = Some (Z.of_nat j).
Proof.
  intros H1 H2 Hne.
  pose proof (words_agree_with_offsets _ _ H1) as E1.
  pose proof (words_agree_with_offsets _ _ H2) as E2.
  repeat split; try assumption.
  intros ->. rewrite E1 in E2. injection E2 as E2. lia.
Qed.

Lemma named_registers_do_not_overlap_witness :
  [("memory_fill_config", 0); ("control", 0)]
    <> [("memory_fill_config", 1); ("address_start", 0)] /\
  Regs.GPU_REG_INDEX [("memory_fill_config", 0); ("control", 0)]
    = Some (Z.of_nat 7) /\
  Regs.GPU_REG_INDEX [("memory_fill_config", 1); ("address_start", 0)]
    = Some (Z.of_nat 8).
Proof.
  apply (named_registers_do_not_overlap 7 8).
  - vm_compute. reflexivity.
  - vm_compute. reflexivity.
  - lia.
Defined.

(** Where the non-MSVC variant of [GPU_REG_INDEX_WORKAROUND] compiles, it is
    the index [GPU_REG_INDEX] computes, the backup index is that index,
    and the MSVC variant gives the same value. *)
Theorem workaround_index_agrees (d : Designator) (backup k : Z) :
  GPU_REG_INDEX_WORKAROUND false d backup = Some k ->
  Regs.GPU_REG_INDEX d = Some k /\ backup = k /\
  GPU_REG_INDEX_WORKAROUND true d backup = Some k.
Proof.
  unfold GPU_REG_INDEX_WORKAROUND.
  destruct (Regs.GPU_REG_INDEX d) as [index|]; [|discriminate].
  case_bool_decide as Hb; [|discriminate].
  intros [= <-]. subst backup. repeat split.
Qed.

Lemma workaround_index_agrees_witness :
  Regs.GPU_REG_INDEX [("memory_fill_config", 1)] = Some 0x008 /\ 0x008 = 0x008 /\
  GPU_REG_INDEX_WORKAROUND true [("memory_fill_config", 1)] 0x008 = Some 0x008.
Proof.
  apply (workaround_index_agrees [("memory_fill_config", 1)] 0x008 0x008).
  reflexivity.
Defined.

(** A backup index that differs from the computed one is refused by the
    non-MSVC variant, while the MSVC variant returns it unchecked. *)
Theorem workaround_rejects_mismatch (d : Designator) (backup k : Z) :
  Regs.GPU_REG_INDEX d = Some k -> backup <> k ->
  GPU_REG_INDEX_WORKAROUND false d backup = None /\
  GPU_REG_INDEX_WORKAROUND true d backup = Some backup.
Proof.
  intros H Hne. unfold GPU_REG_INDEX_WORKAROUND. rewrite H.
  rewrite bool_decide_eq_false_2 by assumption. split; reflexivity.
Qed.

Lemma workaround_rejects_mismatch_witness :
  GPU_REG_INDEX_WORKAROUND false [("memory_fill_config", 1)] 0x009 = None /\
  GPU_REG_INDEX_WORKAROUND true [("memory_fill_config", 1)] 0x009 = Some 0x009.
Proof.
  apply (workaround_rejects_mismatch [("memory_fill_config", 1)] 0x009 0x008).
  - reflexivity.
  - lia.
Defined.

(** [regs[index]] refers to storage of the register file exactly when
    [0 <= index < NumIds()]. *)
Theorem subscript_inside_iff (this index : Z) :
  inside_Regs this (Regs_subscript this index) <-> 0 <= index < Regs.NumIds.
Proof.
  unfold inside_Regs, Regs_subscript, sizeof_u32.
  rewrite sizeof_Regs_value, NumIds_value. lia.
Qed.

(** References obtained with different indices never alias: a store
    through [regs[i]] is read back through [regs[i]] and leaves what
    [regs[j]] refers to unchanged for every other [j]. *)
Theorem subscript_no_alias (m : Memory.t) (this i j value : Z) :
  (Regs_subscript this i = Regs_subscript this j <-> i = j) /\
  Memory.load (Memory.store m (Regs_subscript this i) value) (Regs_subscript this j)
  = if bool_decide (i = j) then value else Memory.load m (Regs_subscript this j).
Proof.
  assert (Regs_subscript this i = Regs_subscript this j <-> i = j) as Hinj
    by (unfold Regs_subscript, sizeof_u32; lia).
  split; [exact Hinj|].
  unfold Memory.load, Memory.store.
  destruct (decide (i = j)) as [->|Hij].
  - rewrite !bool_decide_eq_true_2 by reflexivity. reflexivity.
  - rewrite (bool_decide_eq_false_2 (i = j)) by assumption.
    rewrite bool_decide_eq_false_2; [reflexivity|].
    intros E. apply Hij, Hinj. symmetry. exact E.
Qed.

End LayoutExtras.

(** ** Decoded addresses *)

Section DecodeExtras.

Lemma DecodeAddressRegister_low_bits (x : Z) :
  DecodeAddressRegister x = (x mod 2 ^ 29) * 8.
Proof.
  unfold DecodeAddressRegister, U32.mul, U32.wrap.
  change U32.modulus with (2 ^ 29 * 8).
  apply Z.mul_mod_distr_r; lia.
Qed.

(** Every decoded address is a multiple of 8 and at most 0xFFFFFFF8. *)
Theorem decode_is_aligned (x : Z) :
  (8 | DecodeAddressRegister x) /\ 0 <= DecodeAddressRegister x <= 0xFFFFFFF8.
Proof.
  rewrite DecodeAddressRegister_low_bits.
  pose proof (Z.mod_pos_bound x (2 ^ 29) ltac:(lia)) as H.
  change (2 ^ 29) with 536870912 in *.
  split; [apply Z.divide_factor_r|lia].
Qed.

(** The decoding keeps the low 29 bits of the register only: two register
    values decode to the same address exactly when they agree modulo 2^29,
    and the result is the unwrapped product exactly for values below
    2^29. *)
Theorem decode_drops_top_bits (x y : Z) :
  (DecodeAddressRegister x = DecodeAddressRegister y
   <-> x mod 2 ^ 29 = y mod 2 ^ 29) /\
  (DecodeAddressRegister x = x * 8 <-> 0 <= x < 2 ^ 29).
Proof.
  rewrite !DecodeAddressRegister_low_bits.
  pose proof (Z.mod_pos_bound x (2 ^ 29) ltac:(lia)) as Hx.
  split; [lia|]. split.
  - intros H. assert (x mod 2 ^ 29 = x) as E by lia. rewrite <- E. exact Hx.
  - intros H. rewrite Z.mod_small by exact H. reflexivity.
Qed.

End DecodeExtras.

(** ** Texture-copy line sizes *)

Section TextureCopyExtras.

Import texture_copy.

Lemma halves_recompose (x : Z) :
  x = Z.land x 0xffff + 65536 * Z.shiftr x 16.
Proof.
  change 0xffff with (Z.ones 16).
  rewrite Z.land_ones, Z.shiftr_div_pow2 by lia.
  change (2 ^ 16) with 65536.
  pose proof (Z.div_mod x 65536 ltac:(lia)). lia.
Qed.

(** The two per-line accessors lose nothing: a 32-bit size field is
    recovered from its bytes per line and padding bytes per line, each
    divided by 16. *)
Theorem size_field_recovered (c : t) :
  U32.is_u32 (input_size_with_padding c) ->
  U32.is_u32 (output_size_with_padding c) ->
  input_size_with_padding c
  = InputBytesPerLine c / 16 + 65536 * (InputPaddingBytesPerLine c / 16) /\
  output_size_with_padding c
  = OutputBytesPerLine c / 16 + 65536 * (OutputPaddingBytesPerLine c / 16).
Proof.
  intros Hin Hout.
  rewrite InputBytesPerLine_exact, OutputBytesPerLine_exact.
  rewrite InputPaddingBytesPerLine_exact, OutputPaddingBytesPerLine_exact
    by assumption.
  rewrite !Z.div_mul by lia.
  split; apply halves_recompose.
Qed.

Lemma size_field_recovered_witness :
  let c := Build 0x2000 0x00050010 0xffff0001 in
  input_size_with_padding c
  = InputBytesPerLine c / 16 + 65536 * (InputPaddingBytesPerLine c / 16) /\
  output_size_with_padding c
  = OutputBytesPerLine c / 16 + 65536 * (OutputPaddingBytesPerLine c / 16).
Proof.
  apply (size_field_recovered (Build 0x2000 0x00050010 0xffff0001));
    vm_compute; split; congruence.
Defined.

(** For 32-bit size fields the bytes and the padding bytes per line are at
    most 0xFFFF0, the total is at most 0x1FFFE0 and not below either part,
    and the total is zero only for a zero field. *)
Theorem line_sizes_bounded (c : t) :
  U32.is_u32 (input_size_with_padding c) ->
  U32.is_u32 (output_size_with_padding c) ->
  0 <= InputBytesPerLine c <= 0xFFFF0 /\
  0 <= InputPaddingBytesPerLine c <= 0xFFFF0 /\
  InputBytesPerLine c <= InputTotalBytesPerLine c <= 0x1FFFE0 /\
  InputPaddingBytesPerLine c <= InputTotalBytesPerLine c /\
  (InputTotalBytesPerLine c = 0 <-> input_size_with_padding c = 0) /\
  0 <= OutputBytesPerLine c <= 0xFFFF0 /\
  0 <= OutputPaddingBytesPerLine c <= 0xFFFF0 /\
  OutputBytesPerLine c <= OutputTotalBytesPerLine c <= 0x1FFFE0 /\
  OutputPaddingBytesPerLine c <= OutputTotalBytesPerLine c /\
  (OutputTotalBytesPerLine c = 0 <-> output_size_with_padding c = 0).
Proof.
  intros Hin Hout.
  pose proof (low_half_range (input_size_with_padding c)) as Li.
  pose proof (low_half_range (output_size_with_padding c)) as Lo.
  pose proof (high_half_range _ Hin) as Hi.
  pose proof (high_half_range _ Hout) as Ho.
  pose proof (halves_recompose (input_size_with_padding c)) as Ri.
  pose proof (halves_recompose (output_size_with_padding c)) as Ro.
  assert (InputTotalBytesPerLine c
          = InputBytesPerLine c + InputPaddingBytesPerLine c) as Ti.
  { unfold InputTotalBytesPerLine, U32.add. apply wrap_small.
    rewrite InputBytesPerLine_exact, InputPaddingBytesPerLine_exact by done.
    unfold U32.is_u32, U32.and, U32.shr in *. rewrite u32_modulus. lia. }
  assert (OutputTotalBytesPerLine c
          = OutputBytesPerLine c + OutputPaddingBytesPerLine c) as To.
  { unfold OutputTotalBytesPerLine, U32.add. apply wrap_small.
    rewrite OutputBytesPerLine_exact, OutputPaddingBytesPerLine_exact by done.
    unfold U32.is_u32, U32.and, U32.shr in *. rewrite u32_modulus. lia. }
  rewrite Ti, To.
  rewrite InputBytesPerLine_exact, OutputBytesPerLine_exact.
  rewrite InputPaddingBytesPerLine_exact, OutputPaddingBytesPerLine_exact
    by assumption.
  unfold U32.and, U32.shr in *. lia.
Qed.

Lemma line_sizes_bounded_witness :
  let c := Build 0 0xffffffff 0 in
  0 <= InputBytesPerLine c <= 0xFFFF0 /\
  0 <= InputPaddingBytesPerLine c <= 0xFFFF0 /\
  InputBytesPerLine c <= InputTotalBytesPerLine c <= 0x1FFFE0 /\
  InputPaddingBytesPerLine c <= InputTotalBytesPerLine c /\
  (InputTotalBytesPerLine c = 0 <-> input_size_with_padding c = 0) /\
  0 <= OutputBytesPerLine c <= 0xFFFF0 /\
  0 <= OutputPaddingBytesPerLine c <= 0xFFFF0 /\
  OutputBytesPerLine c <= OutputTotalBytesPerLine c <= 0x1FFFE0 /\
  OutputPaddingBytesPerLine c <= OutputTotalBytesPerLine c /\
  (OutputTotalBytesPerLine c = 0 <-> output_size_with_padding c = 0).
Proof.
  apply (line_sizes_bounded (Build 0 0xffffffff 0));
    vm_compute; split; congruence.
Defined.

End TextureCopyExtras.

(** ** Packed registers *)

Section BitFieldExtras.

Lemma Value_div_mod (p b x : Z) :
  0 <= p -> 0 <= b -> BitField.Value p b x = (x / 2 ^ p) mod 2 ^ b.
Proof.
  intros Hp Hb. unfold BitField.Value.
  rewrite Z.land_ones, Z.shiftr_div_pow2 by assumption. reflexivity.
Qed.

(** A field reads back the part of the word it covers. *)
Lemma Value_of_parts (p b x lo v hi : Z) :
  0 <= p -> 0 <= b -> 0 <= lo < 2 ^ p -> 0 <= v < 2 ^ b ->
  x = lo + 2 ^ p * v + 2 ^ p * 2 ^ b * hi ->
  BitField.Value p b x = v.
Proof.
  intros Hp Hb Hlo Hv ->. rewrite Value_div_mod by assumption.
  replace (lo + 2 ^ p * v + 2 ^ p * 2 ^ b * hi)
    with (lo + (v + hi * 2 ^ b) * 2 ^ p) by ring.
  rewrite Z.div_add, (Z.div_small lo), Z.add_0_l by lia.
  rewrite Z.mod_add by lia. apply Z.mod_small. assumption.
Qed.

Ltac fields_to_arithmetic :=
  rewrite ?Value_div_mod by lia;
  repeat match goal with
         | |- context [2 ^ ?n] =>
             let v := eval vm_compute in (2 ^ n) in change (2 ^ n) with v
         end.

(** The packed size registers split without loss: a 32-bit size word is
    its width field plus 65536 times its height field, both below 65536,
    for the framebuffer size and the two display-transfer sizes. *)
Theorem packed_sizes_split (fb : framebuffer_config.t) (dt : display_transfer_config.t) :
  U32.is_u32 (framebuffer_config.size fb) ->
  U32.is_u32 (display_transfer_config.output_size dt) ->
  U32.is_u32 (display_transfer_config.input_size dt) ->
  framebuffer_config.size fb
  = framebuffer_config.width fb + 65536 * framebuffer_config.height fb /\
  0 <= framebuffer_config.width fb <= 0xffff /\
  0 <= framebuffer_config.height fb <= 0xffff /\
  display_transfer_config.output_size dt
  = display_transfer_config.output_width dt
    + 65536 * display_transfer_config.output_height dt /\
  0 <= display_transfer_config.output_width dt <= 0xffff /\
  0 <= display_transfer_config.output_height dt <= 0xffff /\
  display_transfer_config.input_size dt
  = display_transfer_config.input_width dt
    + 65536 * display_transfer_config.input_height dt /\
  0 <= display_transfer_config.input_width dt <= 0xffff /\
  0 <= display_transfer_config.input_height dt <= 0xffff.
Proof.
  unfold U32.is_u32. rewrite u32_modulus.
  unfold framebuffer_config.width, framebuffer_config.height,
    display_transfer_config.output_width, display_transfer_config.output_height,
    display_transfer_config.input_width, display_transfer_config.input_height.
  intros H1 H2 H3. fields_to_arithmetic.
  Z.div_mod_to_equations. lia.
Qed.

(** The views of the fill value: the 16-bit value is the low 16 bits, and
    the three 8-bit components make up the low 24 bits, r lowest. *)
Theorem fill_value_views (c : memory_fill_config.t) :
  memory_fill_config.value_16bit c = memory_fill_config.value_32bit c mod 2 ^ 16 /\
  memory_fill_config.value_24bit_r c
  + 256 * memory_fill_config.value_24bit_g c
  + 65536 * memory_fill_config.value_24bit_b c
  = memory_fill_config.value_32bit c mod 2 ^ 24 /\
  0 <= memory_fill_config.value_24bit_r c <= 255 /\
  0 <= memory_fill_config.value_24bit_g c <= 255 /\
  0 <= memory_fill_config.value_24bit_b c <= 255.
Proof.
  unfold memory_fill_config.value_16bit, memory_fill_config.value_24bit_r,
    memory_fill_config.value_24bit_g, memory_fill_config.value_24bit_b.
  fields_to_arithmetic.
  Z.div_mod_to_equations. lia.
Qed.

(** The four flags of the memory-fill control word occupy bits 0, 1, 8 and
    9: every combination of them is read back from the word that holds
    them, whatever the remaining bits are. *)
Theorem control_flags_independent (c : memory_fill_config.t)
    (t f a b unused_2_7 unused_10_up : Z) :
  0 <= t <= 1 -> 0 <= f <= 1 -> 0 <= a <= 1 -> 0 <= b <= 1 ->
  0 <= unused_2_7 <= 63 ->
  memory_fill_config.control c
  = t + 2 * f + 4 * unused_2_7 + 256 * a + 512 * b + 1024 * unused_10_up ->
  memory_fill_config.trigger c = t /\
  memory_fill_config.finished c = f /\
  memory_fill_config.fill_24bit c = a /\
  memory_fill_config.fill_32bit c = b.
Proof.
  unfold memory_fill_config.trigger, memory_fill_config.finished,
    memory_fill_config.fill_24bit, memory_fill_config.fill_32bit.
  intros Ht Hf Ha Hb Hu ->. fields_to_arithmetic.
  repeat split; Z.div_mod_to_equations; lia.
Qed.

(** The eight fields of the display-transfer flags word do not overlap:
    every combination of field values is read back from the word that
    holds them, whatever the bits outside the fields are; in particular
    all eight values of each 3-bit format code can be stored. *)
Theorem transfer_flags_independent (c : display_transfer_config.t)
    (flip tiled raw untile fin fout otiled scale : Z)
    (bit2 bit4 bits6_7 bit11 bit15 bits17_23 bits26_up : Z) :
  0 <= flip <= 1 -> 0 <= tiled <= 1 -> 0 <= raw <= 1 -> 0 <= untile <= 1 ->
  0 <= fin <= 7 -> 0 <= fout <= 7 -> 0 <= otiled <= 1 -> 0 <= scale <= 3 ->
  0 <= bit2 <= 1 -> 0 <= bit4 <= 1 -> 0 <= bits6_7 <= 3 -> 0 <= bit11 <= 1 ->
  0 <= bit15 <= 1 -> 0 <= bits17_23 <= 127 ->
  display_transfer_config.flags c
  = flip + 2 * tiled + 4 * bit2 + 8 * raw + 16 * bit4 + 32 * untile
    + 64 * bits6_7 + 256 * fin + 2048 * bit11 + 4096 * fout + 32768 * bit15
    + 65536 * otiled + 131072 * bits17_23 + 16777216 * scale
    + 67108864 * bits26_up ->
  display_transfer_config.flip_data c = flip /\
  display_transfer_config.convert_to_tiled c = tiled /\
  display_transfer_config.is_raw_copy c = raw /\
  display_transfer_config.disable_untiling c = untile /\
  FramebufferFormat.raw (display_transfer_config.GetInputFormat c) = fin /\
  FramebufferFormat.raw (display_transfer_config.GetOutputFormat c) = fout /\
  display_transfer_config.output_tiled c = otiled /\
  display_transfer_config.scaling_mode c = scale.
Proof.
  unfold display_transfer_config.GetInputFormat,
    display_transfer_config.GetOutputFormat.
  cbn [FramebufferFormat.raw].
  unfold display_transfer_config.flip_data,
    display_transfer_config.convert_to_tiled, display_transfer_config.is_raw_copy,
    display_transfer_config.disable_untiling, display_transfer_config.input_format,
    display_transfer_config.output_format, display_transfer_config.output_tiled,
    display_transfer_config.scaling_mode.
  intros H1 H2 H3 H4 H5 H6 H7 H8 U1 U2 U3 U4 U5 U6 E.
  set (w26 := scale + 4 * bits26_up).
  set (w17 := bits17_23 + 128 * w26).
  set (w16 := otiled + 2 * w17).
  set (w15 := bit15 + 2 * w16).
  set (w12 := fout + 8 * w15).
  set (w11 := bit11 + 2 * w12).
  set (w8 := fin + 8 * w11).
  set (w6 := bits6_7 + 4 * w8).
  set (w5 := untile + 2 * w6).
  set (w4 := bit4 + 2 * w5).
  set (w3 := raw + 2 * w4).
  set (w2 := bit2 + 2 * w3).
  set (w1 := tiled + 2 * w2).
  repeat split.
  - apply (Value_of_parts 0 1 _ 0 flip w1); subst w1 w2 w3 w4 w5 w6 w8 w11 w12 w15 w16 w17 w26; lia.
  - apply (Value_of_parts 1 1 _ flip tiled w2); subst w2 w3 w4 w5 w6 w8 w11 w12 w15 w16 w17 w26; lia.
  - apply (Value_of_parts 3 1 _ (flip + 2 * tiled + 4 * bit2) raw w4);
      subst w4 w5 w6 w8 w11 w12 w15 w16 w17 w26; lia.
  - apply (Value_of_parts 5 1 _ (flip + 2 * tiled + 4 * bit2 + 8 * raw + 16 * bit4)
             untile w6); subst w6 w8 w11 w12 w15 w16 w17 w26; lia.
  - apply (Value_of_parts 8 3 _
             (flip + 2 * tiled + 4 * bit2 + 8 * raw + 16 * bit4 + 32 * untile
              + 64 * bits6_7) fin w11); subst w11 w12 w15 w16 w17 w26; lia.
  - apply (Value_of_parts 12 3 _
             (flip + 2 * tiled + 4 * bit2 + 8 * raw + 16 * bit4 + 32 * untile
              + 64 * bits6_7 + 256 * fin + 2048 * bit11) fout w15);
      subst w15 w16 w17 w26; lia.
  - apply (Value_of_parts 16 1 _
             (flip + 2 * tiled + 4 * bit2 + 8 * raw + 16 * bit4 + 32 * untile
              + 64 * bits6_7 + 256 * fin + 2048 * bit11 + 4096 * fout
              + 32768 * bit15) otiled w17); subst w17 w26; lia.
  - apply (Value_of_parts 24 2 _
             (flip + 2 * tiled + 4 * bit2 + 8 * raw + 16 * bit4 + 32 * untile
              + 64 * bits6_7 + 256 * fin + 2048 * bit11 + 4096 * fout
              + 32768 * bit15 + 65536 * otiled + 131072 * bits17_23)
             scale bits26_up); lia.
Qed.

(** The format codes of a display transfer are 3-bit values, 0 to 7,
    whatever the flags word holds. *)
Theorem transfer_format_codes (c : display_transfer_config.t) :
  0 <= FramebufferFormat.raw (display_transfer_config.GetInputFormat c) <= 7 /\
  0 <= FramebufferFormat.raw (display_transfer_config.GetOutputFormat c) <= 7.
Proof.
  unfold display_transfer_config.GetInputFormat,
    display_transfer_config.GetOutputFormat.
  cbn [FramebufferFormat.raw].
  unfold display_transfer_config.input_format,
    display_transfer_config.output_format.
  fields_to_arithmetic. Z.div_mod_to_equations. lia.
Qed.

Lemma packed_sizes_split_witness :
  let fb := framebuffer_config.Build 0x00f00190 0 0 0 0 0 0 0 in
  let dt := display_transfer_config.Build 0 0 0x014000f0 0x019000f0 0 0
              (texture_copy.Build 0 0 0) in
  framebuffer_config.size fb
  = framebuffer_config.width fb + 65536 * framebuffer_config.height fb /\
  0 <= framebuffer_config.width fb <= 0xffff /\
  0 <= framebuffer_config.height fb <= 0xffff /\
  display_transfer_config.output_size dt
  = display_transfer_config.output_width dt
    + 65536 * display_transfer_config.output_height dt /\
  0 <= display_transfer_config.output_width dt <= 0xffff /\
  0 <= display_transfer_config.output_height dt <= 0xffff /\
  display_transfer_config.input_size dt
  = display_transfer_config.input_width dt
    + 65536 * display_transfer_config.input_height dt /\
  0 <= display_transfer_config.input_width dt <= 0xffff /\
  0 <= display_transfer_config.input_height dt <= 0xffff.
Proof.
  apply (packed_sizes_split
           (framebuffer_config.Build 0x00f00190 0 0 0 0 0 0 0)
           (display_transfer_config.Build 0 0 0x014000f0 0x019000f0 0 0
              (texture_copy.Build 0 0 0)));
    vm_compute; split; congruence.
Defined.

Lemma control_flags_independent_witness :
  let c := memory_fill_config.Build 0 0 0 0x203 in
  memory_fill_config.trigger c = 1 /\
  memory_fill_config.finished c = 1 /\
  memory_fill_config.fill_24bit c = 0 /\
  memory_fill_config.fill_32bit c = 1.
Proof.
  apply (control_flags_independent (memory_fill_config.Build 0 0 0 0x203)
           1 1 0 1 0 0); try lia.
  reflexivity.
Defined.

Lemma transfer_flags_independent_witness :
  let c := display_transfer_config.Build 0 0 0 0 0x01017708 0
             (texture_copy.Build 0 0 0) in
  display_transfer_config.flip_data c = 0 /\
  display_transfer_config.convert_to_tiled c = 0 /\
  display_transfer_config.is_raw_copy c = 1 /\
  display_transfer_config.disable_untiling c = 0 /\
  FramebufferFormat.raw (display_transfer_config.GetInputFormat c) = 7 /\
  FramebufferFormat.raw (display_transfer_config.GetOutputFormat c) = 7 /\
  display_transfer_config.output_tiled c = 1 /\
  display_transfer_config.scaling_mode c = 1.
Proof.
  apply (transfer_flags_independent
           (display_transfer_config.Build 0 0 0 0 0x01017708 0
              (texture_copy.Build 0 0 0))
           0 0 1 0 7 7 1 1 0 0 0 0 0 0 0); try lia.
  reflexivity.
Defined.

End BitFieldExtras.

(** ** Arrays of register blocks *)

Section Arrays.

(** The registers of element 1 of the arrays memory_fill_config and
    framebuffer_config mirror those of element 0 one element size further
    (0x10 and 0x100 bytes): whatever member of element 0 a designator
    reaches at offset [o], the same designator into element 1 reaches
    [o] plus the element size. *)
Theorem unit_registers_strided (name : string) (element_size : Z)
    (rest : Designator) (o : Z) :
  (name = "memory_fill_config" /\ element_size = 0x10) \/
  (name = "framebuffer_config" /\ element_size = 0x100) ->
  Regs.offset ((name, 0) :: rest) = Some o ->
  Regs.offset ((name, 1) :: rest) = Some (o + element_size).
Proof.
  unfold Regs.offset. intros [[-> ->]|[-> ->]].
  - cbn [offsetof].
    destruct (find_member Regs.members "memory_fill_config") as [[off m]|] eqn:E;
      [|discriminate].
    injection E as <- <-. cbn [member_count member_body].
    rewrite !bool_decide_eq_true_2 by lia.
    destruct (offsetof _ rest) as [inner|]; [|discriminate].
    intros [= <-]. f_equal. change (sizeof_element _) with 16. lia.
  - cbn [offsetof].
    destruct (find_member Regs.members "framebuffer_config") as [[off m]|] eqn:E;
      [|discriminate].
    injection E as <- <-. cbn [member_count member_body].
    rewrite !bool_decide_eq_true_2 by lia.
    destruct (offsetof _ rest) as [inner|]; [|discriminate].
    intros [= <-]. f_equal. change (sizeof_element _) with 256. lia.
Qed.

Lemma unit_registers_strided_witness :
  Regs.offset [("framebuffer_config", 1); ("stride", 0)] = Some (0x490 + 0x100).
Proof.
  apply (unit_registers_strided "framebuffer_config" 0x100 [("stride", 0)] 0x490).
  - right. split; reflexivity.
  - reflexivity.
Defined.

End Arrays.
